(** * FlashcardApp: the deck store and the study session of [src/App.js]

    The component [App] keeps its data in React state variables
    ([flashcards], [decks], [currentDeck], ...) and mirrors [decks] to
    AsyncStorage under the key ['decks'].  This development embeds the
    handlers of the component ([loadData], [resetToDefault], [saveData],
    [createDeck], [deleteDeck], [switchDeck], [saveCard], [deleteCard],
    [studyCards], [flipCard], [nextCard], [exitStudy]) as programs of a
    small state-and-exception monad over a record of those variables, and
    proves properties of them. *)

From Stdlib Require Import Ascii String.
From stdpp Require Import base numbers list strings pretty.

Open Scope Z_scope.

(** ** JavaScript values

    What [JSON.parse] can return, and therefore what the deck list can
    hold.  Numbers are integers here: the only numbers the program makes
    are [Date.now()] and array lengths. *)

#[warnings="-register-all"] Inductive json : Type :=
| JNull
| JBool (b : bool)
| JNum (n : Z)
| JStr (s : string)
| JArr (items : list json)
| JObj (fields : list (string * json)).

(** A value that may be [undefined]: the result of a property read or of
    [Array.prototype.find], and the arguments the handlers receive.  No
    array or object built by the program holds [undefined] inside. *)

Inductive value : Type :=
| undefined
| J (j : json).

Coercion J : json >-> value.

(** ToBoolean. *)
Definition truthy (v : value) : bool :=
  match v with
  | undefined => false
  | J JNull => false
  | J (JBool b) => b
  | J (JNum n) => negb (n =? 0)
  | J (JStr s) => negb (String.eqb s "")
  | J (JArr _) => true
  | J (JObj _) => true
  end.

(** [a === b].  Primitives are compared by type and content.  Arrays and
    objects are compared by identity in JavaScript; values carry no
    identity here and two of them compare unequal, which is what [===]
    gives for the distinct objects made by [JSON.parse] and by literals. *)
Definition strict_eq (a b : value) : bool :=
  match a, b with
  | undefined, undefined => true
  | J JNull, J JNull => true
  | J (JBool x), J (JBool y) => Bool.eqb x y
  | J (JNum x), J (JNum y) => x =? y
  | J (JStr x), J (JStr y) => String.eqb x y
  | _, _ => false
  end.

(** [Array.isArray]. *)
Definition isArray (v : value) : bool :=
  match v with
  | J (JArr _) => true
  | _ => false
  end.

(** [v || []]. *)
Definition or_empty (v : value) : json :=
  match v with
  | undefined => JArr []
  | J j => if truthy v then j else JArr []
  end.

(** Own properties of an object, first match. *)
Fixpoint lookup_field (k : string) (fs : list (string * json)) : value :=
  match fs with
  | [] => undefined
  | (k', v) :: fs' => if String.eqb k' k then J v else lookup_field k fs'
  end.

(** Assignment of one property: an existing key keeps its place, a new
    key goes last. *)
Fixpoint set_field (k : string) (v : json) (fs : list (string * json))
  : list (string * json) :=
  match fs with
  | [] => [(k, v)]
  | (k', v') :: fs' =>
      if String.eqb k' k then (k, v) :: fs' else (k', v') :: set_field k v fs'
  end.

(** The one-character strings a string iterates over. *)
Fixpoint chars (s : string) : list json :=
  match s with
  | EmptyString => []
  | String c s' => JStr (String c EmptyString) :: chars s'
  end.

(** [j.k] for [j] other than [null]: own properties of objects, and
    [length] of arrays and strings.  The keys the program reads are [id],
    [name], [cards] and [length]; numeric keys of arrays and strings are
    read through [index] below. *)
Definition prop (j : json) (k : string) : value :=
  match j with
  | JObj fs => lookup_field k fs
  | JArr l => if String.eqb k "length" then J (JNum (Z.of_nat (length l))) else undefined
  | JStr s => if String.eqb k "length" then J (JNum (Z.of_nat (String.length s))) else undefined
  | _ => undefined
  end.

(** [l[i]] on an array. *)
Definition index (l : list json) (i : nat) : value :=
  match l !! i with
  | Some j => J j
  | None => undefined
  end.

(** The properties copied by an object spread [{...j}]. *)
Definition own_props (j : json) : list (string * json) :=
  match j with
  | JObj fs => fs
  | JArr l => imap (fun i x => (pretty i, x)) l
  | JStr s => imap (fun i x => (pretty i, x)) (chars s)
  | _ => []
  end.

(** [{...j, k: v}]. *)
Definition spread_with (j : json) (k : string) (v : json) : json :=
  JObj (set_field k v (own_props j)).

(** ** Strings

    [String.prototype.trim] and [toLowerCase] on ASCII text: the white
    space removed is tab, line feed, vertical tab, form feed, carriage
    return and space. *)

Definition is_space (c : ascii) : bool :=
  let n := nat_of_ascii c in
  ((9 <=? n) && (n <=? 13))%nat || (n =? 32)%nat.

Fixpoint trim_start (s : string) : string :=
  match s with
  | EmptyString => EmptyString
  | String c s' => if is_space c then trim_start s' else s
  end.

Fixpoint trim_end (s : string) : string :=
  match s with
  | EmptyString => EmptyString
  | String c s' =>
      match trim_end s' with
      | EmptyString => if is_space c then EmptyString else String c EmptyString
      | t => String c t
      end
  end.

Definition trim (s : string) : string := trim_end (trim_start s).

Definition lower_char (c : ascii) : ascii :=
  let n := nat_of_ascii c in
  if ((65 <=? n) && (n <=? 90))%nat then ascii_of_nat (n + 32) else c.

Fixpoint toLowerCase (s : string) : string :=
  match s with
  | EmptyString => EmptyString
  | String c s' => String (lower_char c) (toLowerCase s')
  end.

(** ** The component's state

    The text kept under the AsyncStorage key.  The program makes such a
    text only by [JSON.stringify] and looks at one only through its
    truthiness and through [JSON.parse], so a text is represented by what
    these see: the empty string, a non-empty text that [JSON.parse]
    rejects, or the text of a JSON value.  That [JSON.parse] gives back
    the value [JSON.stringify] was given is the contract of the two
    library functions, and is how [JsonText] is read. *)

Inductive stored : Type :=
| EmptyText
| Malformed
| JsonText (v : json).

(** The [useState] variables of [App], and the storage backend: the item
    under the key ['decks'] ([None] when the key is absent) and whether
    the backend currently answers ([false]: [getItem] and [setItem]
    reject). *)
Record State : Type := mkState {
  flashcards : json;
  decks : list json;
  currentDeck : value;
  showAddModal : bool;
  showDeckModal : bool;
  question : string;
  answer : string;
  newDeckName : string;
  studyMode : bool;
  currentCardIndex : Z;
  showAnswer : bool;
  isLoading : bool;
  isSaving : bool;
  storage : option stored;
  storage_ok : bool
}.

(** The alerts the component raises. *)
Inductive alert : Type :=
| ErrorLoadingData        (* 'Error Loading Data', OK runs resetToDefault *)
| SaveError               (* 'Save Error' *)
| EnterDeckName           (* 'Error', 'Please enter a deck name' *)
| DuplicateDeckName       (* 'Error', 'A deck with this name already exists' *)
| DeckCreated             (* 'Success!', 'New deck created' *)
| CreateDeckFailed        (* 'Error', 'Failed to create deck. Please try again.' *)
| CannotDelete            (* 'Cannot Delete', 'You must have at least one deck' *)
| ConfirmDeleteDeck (name : value)   (* 'Delete Deck', with the deck's name *)
| FillBothFields          (* 'Error', 'Please fill in both question and answer' *)
| CardAdded               (* 'Success!', 'Flashcard added' *)
| SaveCardFailed          (* 'Error', 'Failed to save card. Please try again.' *)
| ConfirmDeleteCard       (* 'Delete Card' *)
| NoCards.                (* 'No Cards', 'Add some flashcards first!' *)

(** The button pressed in a two-button alert. *)
Inductive button : Type := Cancel | Delete.

(** ** Expressions and statements

    An expression either has a value or throws; the arrow functions given
    to [find], [some], [filter] and [map] are such expressions. *)

Inductive error : Type := TypeError | SyntaxError | InvalidDataFormat | StorageError.

Inductive completion (A : Type) : Type :=
| Normal (a : A)
| Thrown (e : error).
Arguments Normal {A} a.
Arguments Thrown {A} e.

Global Instance completion_ret : MRet completion := fun A a => Normal a.
Global Instance completion_bind : MBind completion := fun A B f c =>
  match c with
  | Normal a => f a
  | Thrown e => Thrown e
  end.

(** A handler run: how it completed, the state it left, the alerts it
    raised.  Assignments made before a throw stay made. *)
Inductive Run (A : Type) : Type :=
| mkRun (outcome : completion A) (final : State) (shown : list alert).
Arguments mkRun {A} _ _ _.

Definition outcome {A} (r : Run A) : completion A :=
  match r with mkRun o _ _ => o end.

Definition final {A} (r : Run A) : State :=
  match r with mkRun _ s _ => s end.

Definition shown {A} (r : Run A) : list alert :=
  match r with mkRun _ _ sh => sh end.

Definition M (A : Type) : Type := State -> Run A.

Global Instance M_ret : MRet M := fun A a s => mkRun (Normal a) s [].

(** The alerts raised so far, put before those of the rest of the run. *)
Definition also {A} (before : list alert) (r : Run A) : Run A :=
  match r with
  | mkRun o s sh => mkRun o s (before ++ sh)
  end.

Global Instance M_bind : MBind M := fun A B f m s =>
  match m s with
  | mkRun (Normal a) s' sh => also sh (f a s')
  | mkRun (Thrown e) s' sh => mkRun (Thrown e) s' sh
  end.

(** An expression evaluated inside a handler. *)
Definition eval {A} (c : completion A) : M A := fun s => mkRun c s [].

Definition throw {A} (e : error) : M A := eval (Thrown e).

Definition try_catch {A} (body : M A) (handler : error -> M A) : M A := fun s =>
  match body s with
  | mkRun (Normal a) s' sh => mkRun (Normal a) s' sh
  | mkRun (Thrown e) s' sh => also sh (handler e s')
  end.

Definition finally {A} (body : M A) (cleanup : M unit) : M A := fun s =>
  match body s with
  | mkRun o s' sh =>
      match cleanup s' with
      | mkRun (Normal _) s'' sh' => mkRun o s'' (sh ++ sh')
      | mkRun (Thrown e) s'' sh' => mkRun (Thrown e) s'' (sh ++ sh')
      end
  end.

Definition Alert_alert (a : alert) : M unit := fun s => mkRun (Normal tt) s [a].

(** [v.k]: reading a property of [undefined] or [null] throws. *)
Definition member (v : value) (k : string) : completion value :=
  match v with
  | undefined => Thrown TypeError
  | J JNull => Thrown TypeError
  | J j => Normal (prop j k)
  end.

(** [v.toLowerCase()]: only strings have the method. *)
Definition call_toLowerCase (v : value) : completion value :=
  match v with
  | J (JStr s) => Normal (J (JStr (toLowerCase s)))
  | _ => Thrown TypeError
  end.

(** [[...v]]: arrays and strings are the iterable values. *)
Definition spread (v : value) : completion (list json) :=
  match v with
  | J (JArr l) => Normal l
  | J (JStr s) => Normal (chars s)
  | _ => Thrown TypeError
  end.

(** [l.find(p)], stopping at the first match. *)
Fixpoint find_e (p : json -> completion bool) (l : list json) : completion value :=
  match l with
  | [] => Normal undefined
  | x :: l' => b ← p x; if b : bool then Normal (J x) else find_e p l'
  end.

(** [l.some(p)], stopping at the first match. *)
Fixpoint some_e (p : json -> completion bool) (l : list json) : completion bool :=
  match l with
  | [] => Normal false
  | x :: l' => b ← p x; if b : bool then Normal true else some_e p l'
  end.

(** [l.filter(p)]. *)
Fixpoint filter_e (p : json -> completion bool) (l : list json) : completion (list json) :=
  match l with
  | [] => Normal []
  | x :: l' => b ← p x; r ← filter_e p l'; Normal (if b : bool then x :: r else r)
  end.

(** [l.map(f)]. *)
Fixpoint map_e (f : json -> completion json) (l : list json) : completion (list json) :=
  match l with
  | [] => Normal []
  | x :: l' => y ← f x; r ← map_e f l'; Normal (y :: r)
  end.

(** [v.filter(p)]: only arrays have the method. *)
Definition call_filter (v : value) (p : json -> completion bool) : completion (list json) :=
  match v with
  | J (JArr l) => filter_e p l
  | _ => Thrown TypeError
  end.

(** ** State setters *)

Definition setFlashcards (v : json) : M unit := fun s =>
  mkRun (Normal tt)
    (mkState v (decks s) (currentDeck s) (showAddModal s) (showDeckModal s)
       (question s) (answer s) (newDeckName s) (studyMode s) (currentCardIndex s)
       (showAnswer s) (isLoading s) (isSaving s) (storage s) (storage_ok s)) [].

Definition setDecks (v : list json) : M unit := fun s =>
  mkRun (Normal tt)
    (mkState (flashcards s) v (currentDeck s) (showAddModal s) (showDeckModal s)
       (question s) (answer s) (newDeckName s) (studyMode s) (currentCardIndex s)
       (showAnswer s) (isLoading s) (isSaving s) (storage s) (storage_ok s)) [].

Definition setCurrentDeck (v : value) : M unit := fun s =>
  mkRun (Normal tt)
    (mkState (flashcards s) (decks s) v (showAddModal s) (showDeckModal s)
       (question s) (answer s) (newDeckName s) (studyMode s) (currentCardIndex s)
       (showAnswer s) (isLoading s) (isSaving s) (storage s) (storage_ok s)) [].

Definition setShowAddModal (v : bool) : M unit := fun s =>
  mkRun (Normal tt)
    (mkState (flashcards s) (decks s) (currentDeck s) v (showDeckModal s)
       (question s) (answer s) (newDeckName s) (studyMode s) (currentCardIndex s)
       (showAnswer s) (isLoading s) (isSaving s) (storage s) (storage_ok s)) [].

Definition setShowDeckModal (v : bool) : M unit := fun s =>
  mkRun (Normal tt)
    (mkState (flashcards s) (decks s) (currentDeck s) (showAddModal s) v
       (question s) (answer s) (newDeckName s) (studyMode s) (currentCardIndex s)
       (showAnswer s) (isLoading s) (isSaving s) (storage s) (storage_ok s)) [].

Definition setQuestion (v : string) : M unit := fun s =>
  mkRun (Normal tt)
    (mkState (flashcards s) (decks s) (currentDeck s) (showAddModal s) (showDeckModal s)
       v (answer s) (newDeckName s) (studyMode s) (currentCardIndex s)
       (showAnswer s) (isLoading s) (isSaving s) (storage s) (storage_ok s)) [].

Definition setAnswer (v : string) : M unit := fun s =>
  mkRun (Normal tt)
    (mkState (flashcards s) (decks s) (currentDeck s) (showAddModal s) (showDeckModal s)
       (question s) v (newDeckName s) (studyMode s) (currentCardIndex s)
       (showAnswer s) (isLoading s) (isSaving s) (storage s) (storage_ok s)) [].

Definition setNewDeckName (v : string) : M unit := fun s =>
  mkRun (Normal tt)
    (mkState (flashcards s) (decks s) (currentDeck s) (showAddModal s) (showDeckModal s)
       (question s) (answer s) v (studyMode s) (currentCardIndex s)
       (showAnswer s) (isLoading s) (isSaving s) (storage s) (storage_ok s)) [].

Definition setStudyMode (v : bool) : M unit := fun s =>
  mkRun (Normal tt)
    (mkState (flashcards s) (decks s) (currentDeck s) (showAddModal s) (showDeckModal s)
       (question s) (answer s) (newDeckName s) v (currentCardIndex s)
       (showAnswer s) (isLoading s) (isSaving s) (storage s) (storage_ok s)) [].

Definition setCurrentCardIndex (v : Z) : M unit := fun s =>
  mkRun (Normal tt)
    (mkState (flashcards s) (decks s) (currentDeck s) (showAddModal s) (showDeckModal s)
       (question s) (answer s) (newDeckName s) (studyMode s) v
       (showAnswer s) (isLoading s) (isSaving s) (storage s) (storage_ok s)) [].

Definition setShowAnswer (v : bool) : M unit := fun s =>
  mkRun (Normal tt)
    (mkState (flashcards s) (decks s) (currentDeck s) (showAddModal s) (showDeckModal s)
       (question s) (answer s) (newDeckName s) (studyMode s) (currentCardIndex s)
       v (isLoading s) (isSaving s) (storage s) (storage_ok s)) [].

Definition setIsLoading (v : bool) : M unit := fun s =>
  mkRun (Normal tt)
    (mkState (flashcards s) (decks s) (currentDeck s) (showAddModal s) (showDeckModal s)
       (question s) (answer s) (newDeckName s) (studyMode s) (currentCardIndex s)
       (showAnswer s) v (isSaving s) (storage s) (storage_ok s)) [].

Definition setIsSaving (v : bool) : M unit := fun s =>
  mkRun (Normal tt)
    (mkState (flashcards s) (decks s) (currentDeck s) (showAddModal s) (showDeckModal s)
       (question s) (answer s) (newDeckName s) (studyMode s) (currentCardIndex s)
       (showAnswer s) (isLoading s) v (storage s) (storage_ok s)) [].

(** ** AsyncStorage and JSON *)

(** [await AsyncStorage.getItem('decks')]: [None] is [null]. *)
Definition AsyncStorage_getItem : M (option stored) := fun s =>
  if storage_ok s then mkRun (Normal (storage s)) s []
  else mkRun (Thrown StorageError) s [].

(** [await AsyncStorage.setItem('decks', text)]. *)
Definition AsyncStorage_setItem (text : stored) : M unit := fun s =>
  if storage_ok s then
    mkRun (Normal tt)
      (mkState (flashcards s) (decks s) (currentDeck s) (showAddModal s) (showDeckModal s)
         (question s) (answer s) (newDeckName s) (studyMode s) (currentCardIndex s)
         (showAnswer s) (isLoading s) (isSaving s) (Some text) (storage_ok s)) []
  else mkRun (Thrown StorageError) s [].

Definition JSON_stringify (v : json) : stored := JsonText v.

Definition JSON_parse (text : stored) : completion json :=
  match text with
  | JsonText v => Normal v
  | _ => Thrown SyntaxError
  end.

(** Truthiness of what [getItem] returned: [null] and the empty string
    are falsy. *)
Definition item_truthy (item : option stored) : bool :=
  match item with
  | None => false
  | Some EmptyText => false
  | Some _ => true
  end.

(** [JSON.parse(item)]; the argument [null] is read as the text of
    [null]. *)
Definition JSON_parse_item (item : option stored) : completion json :=
  match item with
  | None => Normal JNull
  | Some text => JSON_parse text
  end.

(** ** The handlers

    Each handler reads the state variables through the closure it was
    created in ([read] at its entry) and assigns through the setters.  A
    handler is run to its end before the next one starts. *)

(** The state variables as the running closure sees them. *)
Definition read : M State := fun s => mkRun (Normal s) s [].

Definition default_deck : json :=
  JObj [("id", JStr "default"); ("name", JStr "My Cards"); ("cards", JArr [])].

(** [deck => deck.id === x] *)
Definition has_id (x : value) (deck : json) : completion bool :=
  id ← member deck "id"; mret (strict_eq id x).

(** [deck => deck.id !== x], [card => card.id !== x] *)
Definition lacks_id (x : value) (item : json) : completion bool :=
  id ← member item "id"; mret (negb (strict_eq id x)).

(** The object literals of [createDeck] and of [saveCard]. *)
Definition new_deck (now : Z) (name : string) : json :=
  JObj [("id", JStr (pretty now)); ("name", JStr name); ("cards", JArr [])].

Definition new_card (now : Z) (iso q a : string) : json :=
  JObj [("id", JNum now); ("question", JStr q); ("answer", JStr a);
        ("createdAt", JStr iso)].

(** [deck => deck.name.toLowerCase() === lowered] *)
Definition same_name (lowered : string) (deck : json) : completion bool :=
  name ← member deck "name";
  deckName ← call_toLowerCase name;
  mret (strict_eq deckName (JStr lowered)).

(** [deck => deck.id === cur
      ? { ...deck, cards: [...(deck.cards || []), newCard] } : deck] *)
Definition with_card (cur : value) (newCard : json) (deck : json) : completion json :=
  id ← member deck "id";
  if strict_eq id cur then
    cards ← member deck "cards";
    old ← spread (or_empty cards);
    mret (spread_with deck "cards" (JArr (old ++ [newCard])))
  else mret deck.

(** [deck => deck.id === cur
      ? { ...deck, cards: (deck.cards || []).filter(card => card.id !== cardId) }
      : deck] *)
Definition without_card (cur cardId : value) (deck : json) : completion json :=
  id ← member deck "id";
  if strict_eq id cur then
    cards ← member deck "cards";
    kept ← call_filter (or_empty cards) (lacks_id cardId);
    mret (spread_with deck "cards" (JArr kept))
  else mret deck.

Definition saveData (decksData : json) : M unit :=
  finally
    (try_catch
       (setIsSaving true;;
        (if negb (isArray decksData) then throw InvalidDataFormat else mret tt);;
        AsyncStorage_setItem (JSON_stringify decksData))
       (fun _ => Alert_alert SaveError))
    (setIsSaving false).

Definition resetToDefault : M unit :=
  let defaultDecks := [default_deck] in
  setDecks defaultDecks;;
  setFlashcards (JArr []);;
  setCurrentDeck (JStr "default");;
  saveData (JArr defaultDecks).

(** The alert of the [catch] branch offers OK, which runs
    [resetToDefault] as a handler of its own. *)
Definition loadData : M unit :=
  s0 ← read;
  finally
    (try_catch
       (setIsLoading true;;
        savedDecks ← AsyncStorage_getItem;
        if item_truthy savedDecks then
          decksData ← eval (JSON_parse_item savedDecks);
          match decksData with
          | JArr l =>
              if (0 <? length l)%nat then
                setDecks l;;
                currentDeckData ← eval (find_e (has_id (currentDeck s0)) l);
                if truthy currentDeckData then
                  cards ← eval (member currentDeckData "cards");
                  match cards with
                  | J (JArr c) => setFlashcards (JArr c)
                  | _ => mret tt
                  end
                else mret tt
              else resetToDefault
          | _ => resetToDefault
          end
        else mret tt)
       (fun _ => Alert_alert ErrorLoadingData))
    (setIsLoading false).

(** [now] is what [Date.now()] returns. *)
Definition createDeck (now : Z) : M unit :=
  s0 ← read;
  if negb (truthy (JStr (trim (newDeckName s0)))) then
    Alert_alert EnterDeckName
  else
    duplicate ← eval (some_e (same_name (toLowerCase (trim (newDeckName s0))))
                        (decks s0));
    if duplicate : bool then
      Alert_alert DuplicateDeckName
    else
      try_catch
        (let newDeck := new_deck now (trim (newDeckName s0)) in
         let updatedDecks := decks s0 ++ [newDeck] in
         setDecks updatedDecks;;
         saveData (JArr updatedDecks);;
         setNewDeckName "";;
         setShowDeckModal false;;
         Alert_alert DeckCreated)
        (fun _ => Alert_alert CreateDeckFailed).

(** [choice] is the button pressed in the 'Delete Deck' alert. *)
Definition deleteDeck (deckId : value) (choice : button) : M unit :=
  s0 ← read;
  if (length (decks s0) <=? 1)%nat then
    Alert_alert CannotDelete
  else
    deckToDelete ← eval (find_e (has_id deckId) (decks s0));
    name ← eval (member deckToDelete "name");
    Alert_alert (ConfirmDeleteDeck name);;
    match choice with
    | Cancel => mret tt
    | Delete =>
        updatedDecks ← eval (filter_e (lacks_id deckId) (decks s0));
        setDecks updatedDecks;;
        saveData (JArr updatedDecks);;
        if strict_eq (currentDeck s0) deckId then
          newCurrentDeck ← eval (member (index updatedDecks 0) "id");
          setCurrentDeck newCurrentDeck;;
          cards ← eval (member (index updatedDecks 0) "cards");
          setFlashcards (or_empty cards)
        else mret tt
    end.

Definition switchDeck (deckId : value) : M unit :=
  s0 ← read;
  setCurrentDeck deckId;;
  selectedDeck ← eval (find_e (has_id deckId) (decks s0));
  if truthy selectedDeck then
    cards ← eval (member selectedDeck "cards");
    setFlashcards (or_empty cards)
  else mret tt.

Definition getCurrentDeckName : M value :=
  s0 ← read;
  deck ← eval (find_e (has_id (currentDeck s0)) (decks s0));
  if truthy deck then eval (member deck "name") else mret (J (JStr "My Cards")).

Definition addCard : M unit := setShowAddModal true.

(** [now] is what [Date.now()] returns and [iso] what
    [new Date().toISOString()] returns.  The updater given to
    [setFlashcards] is run by React after the handler, outside its [try]:
    it is applied last, when the [try] block reached it. *)
Definition saveCard (now : Z) (iso : string) : M unit :=
  s0 ← read;
  if negb (truthy (JStr (trim (question s0)))) || negb (truthy (JStr (trim (answer s0)))) then
    Alert_alert FillBothFields
  else
    queued ← try_catch
      (let newCard := new_card now iso (trim (question s0)) (trim (answer s0)) in
       updatedDecks ← eval (map_e (with_card (currentDeck s0) newCard) (decks s0));
       setDecks updatedDecks;;
       saveData (JArr updatedDecks);;
       setQuestion "";;
       setAnswer "";;
       setShowAddModal false;;
       Alert_alert CardAdded;;
       mret (Some newCard))
      (fun _ => Alert_alert SaveCardFailed;; mret None);
    match queued with
    | Some newCard =>
        pending ← read;
        prev ← eval (spread (flashcards pending));
        setFlashcards (JArr (prev ++ [newCard]))
    | None => mret tt
    end.

(** [choice] is the button pressed in the 'Delete Card' alert. *)
Definition deleteCard (cardId : value) (choice : button) : M unit :=
  s0 ← read;
  Alert_alert ConfirmDeleteCard;;
  match choice with
  | Cancel => mret tt
  | Delete =>
      updatedDecks ← eval (map_e (without_card (currentDeck s0) cardId) (decks s0));
      setDecks updatedDecks;;
      saveData (JArr updatedDecks);;
      updatedCards ← eval (call_filter (flashcards s0) (lacks_id cardId));
      setFlashcards (JArr updatedCards)
  end.

(** ** The study session *)

Definition studyCards : M unit :=
  s0 ← read;
  len ← eval (member (flashcards s0) "length");
  if strict_eq len (JNum 0) then
    Alert_alert NoCards
  else
    setStudyMode true;;
    setCurrentCardIndex 0;;
    setShowAnswer false.

Definition flipCard : M unit :=
  s0 ← read;
  setShowAnswer (negb (showAnswer s0)).

(** [currentCardIndex < flashcards.length - 1]: with [length] undefined
    the right side is NaN and the comparison is false.  A card list whose
    [length] is neither a number nor undefined (an object with such a
    property) is read the same way. *)
Definition nextCard : M unit :=
  s0 ← read;
  len ← eval (member (flashcards s0) "length");
  let more := match len with
              | J (JNum n) => currentCardIndex s0 <? n - 1
              | _ => false
              end in
  if more then
    setCurrentCardIndex (currentCardIndex s0 + 1);;
    setShowAnswer false
  else
    setStudyMode false.

Definition exitStudy : M unit := setStudyMode false.

(** The card on screen in study mode: [flashcards[currentCardIndex]]. *)
Definition currentCard (s : State) : value :=
  match flashcards s with
  | JArr l => if 0 <=? currentCardIndex s then index l (Z.to_nat (currentCardIndex s)) else undefined
  | _ => undefined
  end.

(** ** Start-up *)

(** The state of the first render, over whatever the storage holds. *)
Definition initial (item : option stored) (ok : bool) : State :=
  mkState (JArr []) [default_deck] (JStr "default") false false "" "" "" false 0 false
    true false item ok.

(** ** Events

    What can happen to the component: the handlers with their arguments,
    typing into the inputs, opening and closing the two modals, and the
    storage backend going away or coming back. *)

Inductive event : Type :=
| EvLoadData
| EvResetToDefault
| EvCreateDeck (now : Z)
| EvDeleteDeck (deckId : value) (choice : button)
| EvSwitchDeck (deckId : value)
| EvSaveCard (now : Z) (iso : string)
| EvDeleteCard (cardId : value) (choice : button)
| EvSetNewDeckName (text : string)
| EvSetQuestion (text : string)
| EvSetAnswer (text : string)
| EvSetShowAddModal (visible : bool)
| EvSetShowDeckModal (visible : bool)
| EvStudyCards
| EvFlipCard
| EvNextCard
| EvExitStudy
| EvStorage (ok : bool).

Definition setStorageOk (ok : bool) : M unit := fun s =>
  mkRun (Normal tt)
    (mkState (flashcards s) (decks s) (currentDeck s) (showAddModal s) (showDeckModal s)
       (question s) (answer s) (newDeckName s) (studyMode s) (currentCardIndex s)
       (showAnswer s) (isLoading s) (isSaving s) (storage s) ok) [].

Definition handle (e : event) : M unit :=
  match e with
  | EvLoadData => loadData
  | EvResetToDefault => resetToDefault
  | EvCreateDeck now => createDeck now
  | EvDeleteDeck deckId choice => deleteDeck deckId choice
  | EvSwitchDeck deckId => switchDeck deckId
  | EvSaveCard now iso => saveCard now iso
  | EvDeleteCard cardId choice => deleteCard cardId choice
  | EvSetNewDeckName text => setNewDeckName text
  | EvSetQuestion text => setQuestion text
  | EvSetAnswer text => setAnswer text
  | EvSetShowAddModal visible => setShowAddModal visible
  | EvSetShowDeckModal visible => setShowDeckModal visible
  | EvStudyCards => studyCards
  | EvFlipCard => flipCard
  | EvNextCard => nextCard
  | EvExitStudy => exitStudy
  | EvStorage ok => setStorageOk ok
  end.

(** The state after a sequence of events; a handler that throws leaves
    the assignments it made. *)
Fixpoint after (es : list event) (s : State) : State :=
  match es with
  | [] => s
  | e :: es' => after es' (final (handle e s))
  end.

(** [nextCard] pressed [k] times. *)
Fixpoint advance (k : nat) (s : State) : State :=
  match k with
  | O => s
  | S k' => final (nextCard (advance k' s))
  end.

(** ** The data model of the decks

    A card is an object with a number or string [id] and string
    [question], [answer] and [createdAt]; a deck is an object with string
    [id] and [name] and an array [cards] of cards. *)

Definition is_str (v : value) : bool :=
  match v with
  | J (JStr _) => true
  | _ => false
  end.

Definition is_card_id (v : value) : bool :=
  match v with
  | J (JNum _) => true
  | J (JStr _) => true
  | _ => false
  end.

Definition is_card (c : json) : bool :=
  match c with
  | JObj _ =>
      is_card_id (prop c "id") && is_str (prop c "question")
      && is_str (prop c "answer") && is_str (prop c "createdAt")
  | _ => false
  end.

Definition is_deck (d : json) : bool :=
  match d with
  | JObj _ =>
      is_str (prop d "id") && is_str (prop d "name")
      && match prop d "cards" with
         | J (JArr cs) => forallb is_card cs
         | _ => false
         end
  | _ => false
  end.

Definition deck_id (d : json) : value := prop d "id".

Definition deck_cards (d : json) : list json :=
  match prop d "cards" with
  | J (JArr cs) => cs
  | _ => []
  end.

Definition deck_ids (l : list json) : list value := map deck_id l.

(** The deck the active deck id selects: the first one with that id. *)
Definition active_deck (s : State) : option json :=
  List.find (fun d => strict_eq (deck_id d) (currentDeck s)) (decks s).

Definition deck_name (d : json) : string :=
  match prop d "name" with
  | J (JStr x) => x
  | _ => ""
  end.

(** Some deck of [l] has the name [n], letter case apart. *)
Definition name_taken (n : string) (l : list json) : bool :=
  existsb (fun d => String.eqb (toLowerCase (deck_name d)) (toLowerCase n)) l.

(** What the storage holds after [saveData] of the array [l]. *)
Definition written (l : list json) (s : State) : option stored :=
  if storage_ok s then Some (JsonText (JArr l)) else storage s.

(** The state [saveData] leaves when given the array [l]. *)
Definition saved (l : list json) (s : State) : State :=
  mkState (flashcards s) (decks s) (currentDeck s) (showAddModal s) (showDeckModal s)
    (question s) (answer s) (newDeckName s) (studyMode s) (currentCardIndex s)
    (showAnswer s) (isLoading s) false (written l s) (storage_ok s).

(** The single default deck, in memory. *)
Definition default_state (s : State) : Prop :=
  decks s = [default_deck] /\ flashcards s = JArr [] /\ currentDeck s = J (JStr "default").

(** The decks are well formed and their ids are pairwise distinct. *)
Definition well_formed (l : list json) : Prop :=
  forallb is_deck l = true /\ NoDup (deck_ids l).

(** Some card of [cards] has the id [cardId]. *)
Definition card_in (cardId : value) (cards : list json) : bool :=
  existsb (fun c => strict_eq (prop c "id") cardId) cards.

(** A stored non-empty array is a well-formed deck list: the storage was
    written by [saveData] from such a list, or never written. *)
Definition payload_ok (item : option stored) : Prop :=
  match item with
  | Some (JsonText (JArr l)) => l = [] \/ well_formed l
  | _ => True
  end.

(** The invariant of the deck store. *)
Definition store_ok (s : State) : Prop :=
  decks s <> [] /\ well_formed (decks s) /\ payload_ok (storage s).

(** The clock reading of a [createDeck] is not the id of a deck. *)
Definition fresh (e : event) (s : State) : Prop :=
  match e with
  | EvCreateDeck now => ~ In (J (JStr (pretty now))) (deck_ids (decks s))
  | _ => True
  end.

Fixpoint fresh_run (es : list event) (s : State) : Prop :=
  match es with
  | [] => True
  | e :: es' => fresh e s /\ fresh_run es' (final (handle e s))
  end.

(** The card list on screen is the card list of the active deck. *)
Definition synced (s : State) : Prop :=
  exists d, active_deck s = Some d /\ flashcards s = JArr (deck_cards d).



(** ** Sample runs *)

(** A first run of the application on an empty storage: the user makes
    the deck "Math" and deletes the deck "My Cards". *)
Definition first_session : list event :=
  [EvLoadData; EvSetNewDeckName "Math"; EvCreateDeck 1700000000000;
   EvDeleteDeck (JStr "default") Delete].

(** The application started again over what the first run stored. *)
Definition restarted : State :=
  initial (storage (after first_session (initial None true))) true.

(** A card typed and saved. *)
Definition add_a_card : list event :=
  [EvSetQuestion "2+2?"; EvSetAnswer "4";
   EvSaveCard 1700000100000 "2023-11-14T22:15:00.000Z"].

(** The default deck holding two cards. *)
Definition two_cards : State :=
  mkState
    (JArr [new_card 1 "t1" "2+2?" "4"; new_card 2 "t2" "3+3?" "6"])
    [JObj [("id", JStr "default"); ("name", JStr "My Cards");
           ("cards", JArr [new_card 1 "t1" "2+2?" "4"; new_card 2 "t2" "3+3?" "6"])]]
    (JStr "default") false false "" "" "" false 0 false false false None true.

(** The example run of the specification: a card added to the default
    deck, a deck "Math" created, and a switch to it. *)
Definition example_run : list event :=
  [EvLoadData; EvSetQuestion "2+2?"; EvSetAnswer "4";
   EvSaveCard 1700000000000 "2023-11-14T22:13:20.000Z";
   EvSetNewDeckName "Math"; EvCreateDeck 1700000050000].

(** The first screen with " Math " typed as the name of a new deck, and
    with a question and an answer typed. *)
Definition naming_a_deck : State :=
  after [EvLoadData; EvSetNewDeckName " Math "] (initial None true).

Definition typing_a_card : State :=
  after [EvLoadData; EvSetQuestion " 2+2? "; EvSetAnswer "4"] (initial None true).

(** Whether an event may shorten the deck list. *)
Definition replaces_decks (e : event) : bool :=
  match e with
  | EvLoadData | EvResetToDefault | EvDeleteDeck _ _ => true
  | _ => false
  end.

(** ** The screens and the rest of the events *)

(** The label of the button under the card in study mode:
    [currentCardIndex === flashcards.length - 1 ? 'Finish' : 'Next Card'].
    With [length] undefined the right side is NaN and the test is false. *)
Definition nextButtonLabel (s : State) : completion string :=
  len ← member (flashcards s) "length";
  mret (if match len with
           | J (JNum n) => currentCardIndex s =? n - 1
           | _ => false
           end
        then "Finish" else "Next Card").

(** The Cancel buttons of the two modals. *)
Definition cancelAddCard : M unit :=
  setShowAddModal false;;
  setQuestion "";;
  setAnswer "".

Definition cancelCreateDeck : M unit :=
  setShowDeckModal false;;
  setNewDeckName "".

(** The events of the study screen. *)
Definition is_study (e : event) : bool :=
  match e with
  | EvStudyCards | EvFlipCard | EvNextCard | EvExitStudy => true
  | _ => false
  end.

(** The events that leave the storage backend answering. *)
Definition storage_up (e : event) : bool :=
  match e with
  | EvStorage false => false
  | _ => true
  end.

(** The storage holds the deck list of the state variables, or nothing
    yet while the list is the default one. *)
Definition mirrored (s : State) : Prop :=
  (storage s = None /\ decks s = [default_deck]) \/
  storage s = Some (JsonText (JArr (decks s))).

(** The names of the decks, letter case apart, are pairwise distinct. *)
Definition names_distinct (l : list json) : Prop :=
  NoDup (map (fun d => toLowerCase (deck_name d)) l).

(** No card of [cards] has the id [Date.now()] gives. *)
Definition card_id_free (now : Z) (cards : list json) : Prop :=
  card_in (JNum now) cards = false.

(** The two sides of the card on the study screen:
    [currentCard.question] and [currentCard.answer]. *)
Definition cardFaces (s : State) : completion (value * value) :=
  q ← member (currentCard s) "question";
  a ← member (currentCard s) "answer";
  mret (q, a).

(** A deck after an edit of the cards of the deck with id [cur]: the id
    and the name are kept, and a deck of another id is the same deck. *)
Definition same_but_cards (cur : value) (x y : json) : Prop :=
  deck_id y = deck_id x /\
  prop y "name" = prop x "name" /\
  (strict_eq (deck_id x) cur = false -> y = x).

(** The names in a stored deck list are distinct. *)
Definition stored_names_ok (item : option stored) : Prop :=
  match item with
  | Some (JsonText (JArr l)) => names_distinct l
  | _ => True
  end.

(** The deck names are distinct in memory and in the storage. *)
Definition names_ok (s : State) : Prop :=
  names_distinct (decks s) /\ stored_names_ok (storage s).

(** * Properties *)

(** Unfolding of the monad's operations in a run. *)
Ltac run :=
  unfold mbind, mret, M_bind, M_ret, completion_bind, completion_ret,
    eval, throw, read, try_catch, finally, Alert_alert in *;
  cbn in *.

(** ** The study session *)

Section Study.

Variable cards : list json.

Lemma studyCards_run (s : State) :
  flashcards s = JArr cards ->
  studyCards s =
    if (length cards =? 0)%nat then mkRun (Normal tt) s [NoCards]
    else mkRun (Normal tt)
           (final (setShowAnswer false
              (final (setCurrentCardIndex 0 (final (setStudyMode true s)))))) [].
Proof.
  intros Hf. destruct s; cbn in Hf; subst.
  unfold studyCards. run. destruct cards as [|c l]; reflexivity.
Qed.

Lemma nextCard_run (s : State) :
  flashcards s = JArr cards ->
  nextCard s =
    if currentCardIndex s <? Z.of_nat (length cards) - 1
    then mkRun (Normal tt)
           (final (setShowAnswer false
              (final (setCurrentCardIndex (currentCardIndex s + 1) s)))) []
    else mkRun (Normal tt) (final (setStudyMode false s)) [].
Proof.
  intros Hf. destruct s; cbn in Hf; subst.
  unfold nextCard. run.
  destruct (_ <? _); reflexivity.
Qed.

Lemma nextCard_flashcards (s : State) :
  flashcards s = JArr cards -> flashcards (final (nextCard s)) = JArr cards.
Proof.
  intros Hf. rewrite (nextCard_run s Hf).
  destruct (currentCardIndex s <? Z.of_nat (length cards) - 1); exact Hf.
Qed.

Lemma advance_flashcards (k : nat) (s : State) :
  flashcards s = JArr cards -> flashcards (advance k s) = JArr cards.
Proof.
  intros Hf. induction k as [|k IH]; [exact Hf|].
  cbn [advance]. apply nextCard_flashcards, IH.
Qed.

Lemma advance_in_session (k : nat) (s : State) :
  flashcards s = JArr cards ->
  studyMode s = true ->
  currentCardIndex s = 0 ->
  (k < length cards)%nat ->
  studyMode (advance k s) = true /\ currentCardIndex (advance k s) = Z.of_nat k.
Proof.
  intros Hf Hm Hi. induction k as [|k IH]; intros Hk.
  - split; assumption.
  - destruct IH as [IHm IHi]; [lia|].
    cbn [advance].
    rewrite (nextCard_run _ (advance_flashcards k s Hf)), IHi.
    destruct (Z.ltb_spec (Z.of_nat k) (Z.of_nat (length cards) - 1)) as [_|Hge]; [|lia].
    cbn. split; [exact IHm | lia].
Qed.

End Study.

(** C9. A study session over [N >= 1] cards starts at index 0 with the
    question side up.  While the index is below [N - 1], [nextCard] adds
    one to it and stays in study mode; otherwise it leaves study mode.
    So after [k < N] presses the card on screen is card [k], and press
    [N] ends the session.  With no cards, [studyCards] raises 'No Cards'
    and does not start a session. *)
Theorem study_session_visits_every_card (s : State) (cards : list json) :
  flashcards s = JArr cards ->
  let N := length cards in
  let started := final (studyCards s) in
  (N = 0%nat -> studyCards s = mkRun (Normal tt) s [NoCards]) /\
  ((1 <= N)%nat ->
     outcome (studyCards s) = Normal tt /\
     studyMode started = true /\
     currentCardIndex started = 0 /\
     showAnswer started = false /\
     (forall k, (k < N)%nat ->
        studyMode (advance k started) = true /\
        currentCardIndex (advance k started) = Z.of_nat k /\
        currentCard (advance k started) = index cards k) /\
     studyMode (advance N started) = false) /\
  (forall t, flashcards t = JArr cards ->
     outcome (nextCard t) = Normal tt /\
     (currentCardIndex t < Z.of_nat N - 1 ->
        currentCardIndex (final (nextCard t)) = currentCardIndex t + 1 /\
        studyMode (final (nextCard t)) = studyMode t) /\
     (~ currentCardIndex t < Z.of_nat N - 1 ->
        studyMode (final (nextCard t)) = false /\
        currentCardIndex (final (nextCard t)) = currentCardIndex t)).
Proof.
  intros Hf N started. subst started.
  rewrite (studyCards_run cards s Hf). fold N. split; [|split].
  - intros ->. reflexivity.
  - intros HN. destruct (Nat.eqb_spec N 0) as [E|_]; [lia|].
    set (started := final _).
    assert (Hfs : flashcards started = JArr cards) by exact Hf.
    split; [reflexivity|]. split; [reflexivity|]. split; [reflexivity|].
    split; [reflexivity|]. split.
    + intros k Hk.
      destruct (advance_in_session cards k started Hfs eq_refl eq_refl Hk) as [Hm Hi].
      split; [exact Hm|]. split; [exact Hi|].
      unfold currentCard. rewrite (advance_flashcards cards k started Hfs), Hi.
      destruct (Z.leb_spec 0 (Z.of_nat k)); [|lia]. rewrite Nat2Z.id. reflexivity.
    + destruct N as [|n] eqn:EN; [lia|]. cbn [advance].
      destruct (advance_in_session cards n started Hfs eq_refl eq_refl) as [Hm Hi];
        [fold N; lia|].
      rewrite (nextCard_run cards _ (advance_flashcards cards n started Hfs)), Hi.
      fold N. rewrite EN.
      destruct (Z.ltb_spec (Z.of_nat n) (Z.of_nat (S n) - 1)); [lia|]. reflexivity.
  - intros t Ht. rewrite (nextCard_run cards t Ht). fold N.
    destruct (Z.ltb_spec (currentCardIndex t) (Z.of_nat N - 1)); cbn.
    + split; [reflexivity|]. split; [auto|]. intros Hn. contradiction.
    + split; [reflexivity|]. split; [lia|]. auto.
Qed.

Lemma study_session_visits_every_card_witness :
  studyMode (advance 1 (final (studyCards two_cards))) = true /\
  currentCard (advance 1 (final (studyCards two_cards))) = J (new_card 2 "t2" "3+3?" "6") /\
  studyMode (advance 2 (final (studyCards two_cards))) = false.
Proof.
  pose proof (study_session_visits_every_card two_cards _ eq_refl) as (_ & H & _).
  cbn [length] in H. destruct H as (_ & _ & _ & _ & Hk & Hend); [lia|].
  destruct (Hk 1%nat) as (Hm & _ & Hc); [lia|].
  split; [exact Hm|]. split; [exact Hc|exact Hend].
Defined.

(** ** Persistence *)

Lemma saveData_run (l : list json) (s : State) :
  saveData (JArr l) s =
    mkRun (Normal tt) (saved l s) (if storage_ok s then [] else [SaveError]).
Proof.
  destruct s as [f d c a1 a2 q a n m i sa lo sv st ok].
  unfold saveData, saved, written, AsyncStorage_setItem, JSON_stringify. run.
  destruct ok; reflexivity.
Qed.

#[global] Arguments saveData : simpl never.

Lemma saveData_not_array (v : json) (s : State) :
  isArray v = false ->
  saveData v s = mkRun (Normal tt) (final (setIsSaving false s)) [SaveError].
Proof.
  intros Hv. destruct s as [f d c a1 a2 q a n m i sa lo sv st ok].
  unfold saveData. run. rewrite Hv. reflexivity.
Qed.

Lemma resetToDefault_run (s : State) :
  resetToDefault s =
    mkRun (Normal tt)
      (saved [default_deck]
         (final (setCurrentDeck (JStr "default")
            (final (setFlashcards (JArr []) (final (setDecks [default_deck] s)))))))
      (if storage_ok s then [] else [SaveError]).
Proof.
  unfold resetToDefault. run. rewrite saveData_run. cbn.
  destruct (storage_ok s); reflexivity.
Qed.

(** ** Values *)

Lemma strict_eq_true (a b : value) : strict_eq a b = true -> a = b.
Proof.
  destruct a as [|[]], b as [|[]]; cbn; try discriminate; try reflexivity; intros H.
  - apply Bool.eqb_prop in H. congruence.
  - apply Z.eqb_eq in H. congruence.
  - apply String.eqb_eq in H. congruence.
Qed.

Lemma lookup_set_field_eq (k : string) (v : json) (fs : list (string * json)) :
  lookup_field k (set_field k v fs) = J v.
Proof.
  induction fs as [|[k' v'] fs IH]; cbn.
  - rewrite String.eqb_refl. reflexivity.
  - destruct (String.eqb k' k) eqn:E; cbn.
    + rewrite String.eqb_refl. reflexivity.
    + rewrite E. exact IH.
Qed.

Lemma lookup_set_field_ne (k k0 : string) (v : json) (fs : list (string * json)) :
  k <> k0 -> lookup_field k0 (set_field k v fs) = lookup_field k0 fs.
Proof.
  intros Hne. induction fs as [|[k' v'] fs IH]; cbn.
  - destruct (String.eqb_spec k k0); [contradiction|reflexivity].
  - destruct (String.eqb_spec k' k) as [->|Hk]; cbn.
    + destruct (String.eqb_spec k k0); [contradiction|reflexivity].
    + destruct (String.eqb k' k0); [reflexivity|exact IH].
Qed.

Lemma set_field_twice (k : string) (v : json) (fs : list (string * json)) :
  set_field k v (set_field k v fs) = set_field k v fs.
Proof.
  induction fs as [|[k' v'] fs IH]; cbn.
  - rewrite String.eqb_refl. reflexivity.
  - destruct (String.eqb k' k) eqn:E; cbn.
    + rewrite String.eqb_refl. reflexivity.
    + rewrite E, IH. reflexivity.
Qed.

Lemma set_field_same (k : string) (v : json) (fs : list (string * json)) :
  lookup_field k fs = J v -> set_field k v fs = fs.
Proof.
  induction fs as [|[k' v'] fs IH]; cbn; [discriminate|].
  destruct (String.eqb_spec k' k) as [->|Hk]; intros H.
  - congruence.
  - rewrite (IH H). reflexivity.
Qed.

(** Decimal numerals do not spell [id]. *)
Lemma pretty_N_go_not_i (x : N) (s s' : string) :
  s <> String "i" s' -> pretty_N_go x s <> String "i" s'.
Proof.
  revert s. induction (N.lt_wf_0 x) as [x _ IH]; intros s Hs.
  destruct (N.eq_dec x 0%N) as [->|Hx].
  - rewrite pretty_N_go_0. exact Hs.
  - rewrite pretty_N_go_step by lia. apply IH.
    + apply N.div_lt; lia.
    + unfold pretty_N_char. repeat case_match; discriminate.
Qed.

Lemma pretty_nat_not_id (i : nat) : pretty i <> "id".
Proof.
  unfold pretty, pretty_nat, pretty, pretty_N.
  case_decide; [discriminate|]. apply pretty_N_go_not_i. discriminate.
Qed.

Lemma lookup_id_indexed (l : list json) (n : nat) :
  lookup_field "id" (imap (fun i x => (pretty (n + i)%nat, x)) l) = undefined.
Proof.
  revert n. induction l as [|x l IH]; intros n; cbn; [reflexivity|].
  destruct (String.eqb_spec (pretty (n + 0)%nat) "id") as [E|_].
  - destruct (pretty_nat_not_id _ E).
  - rewrite <- (IH (S n)). f_equal. apply imap_ext. intros i y _. cbn.
    do 2 f_equal. lia.
Qed.

(** An object spread keeps what [.id] reads. *)
Lemma lookup_id_own_props (j : json) :
  lookup_field "id" (own_props j) = prop j "id".
Proof.
  destruct j; cbn; try reflexivity.
  - apply (lookup_id_indexed _ 0).
  - apply (lookup_id_indexed _ 0).
Qed.

Lemma prop_id_spread_with (j v : json) :
  prop (spread_with j "cards" v) "id" = prop j "id".
Proof.
  unfold spread_with. cbn [prop]. rewrite lookup_set_field_ne by discriminate.
  apply lookup_id_own_props.
Qed.

Lemma prop_cards_spread_with (j v : json) :
  prop (spread_with j "cards" v) "cards" = J v.
Proof. unfold spread_with. cbn [prop]. apply lookup_set_field_eq. Qed.

Lemma spread_with_twice (j v : json) :
  spread_with (spread_with j "cards" v) "cards" v = spread_with j "cards" v.
Proof. unfold spread_with. cbn [own_props]. rewrite set_field_twice. reflexivity. Qed.

(** ** Iteration *)

Lemma filter_e_cons (p : json -> completion bool) (x : json) (l : list json) :
  filter_e p (x :: l) =
    match p x with
    | Normal b =>
        match filter_e p l with
        | Normal r => Normal (if b then x :: r else r)
        | Thrown e => Thrown e
        end
    | Thrown e => Thrown e
    end.
Proof. cbn [filter_e]. destruct (p x); reflexivity. Qed.

Lemma map_e_cons (f : json -> completion json) (x : json) (l : list json) :
  map_e f (x :: l) =
    match f x with
    | Normal y =>
        match map_e f l with
        | Normal r => Normal (y :: r)
        | Thrown e => Thrown e
        end
    | Thrown e => Thrown e
    end.
Proof. cbn [map_e]. destruct (f x); reflexivity. Qed.

Lemma find_e_cons (p : json -> completion bool) (x : json) (l : list json) :
  find_e p (x :: l) =
    match p x with
    | Normal b => if b then Normal (J x) else find_e p l
    | Thrown e => Thrown e
    end.
Proof. cbn [find_e]. destruct (p x); reflexivity. Qed.

Lemma some_e_cons (p : json -> completion bool) (x : json) (l : list json) :
  some_e p (x :: l) =
    match p x with
    | Normal b => if b then Normal true else some_e p l
    | Thrown e => Thrown e
    end.
Proof. cbn [some_e]. destruct (p x); reflexivity. Qed.

#[global] Arguments find_e : simpl never.
#[global] Arguments some_e : simpl never.
#[global] Arguments filter_e : simpl never.
#[global] Arguments map_e : simpl never.
#[global] Arguments call_filter : simpl never.
#[global] Arguments member : simpl never.
#[global] Arguments spread : simpl never.
#[global] Arguments truthy : simpl nomatch.
#[global] Arguments or_empty : simpl nomatch.

(** A filter that went through keeps its result when run again. *)
Lemma filter_e_twice (p : json -> completion bool) (l kept : list json) :
  filter_e p l = Normal kept -> filter_e p kept = Normal kept.
Proof.
  revert kept. induction l as [|x l IH]; intros kept.
  - intros [= <-]. reflexivity.
  - rewrite filter_e_cons.
    destruct (p x) as [b|] eqn:Hp; [|discriminate].
    destruct (filter_e p l) as [r|]; [|discriminate].
    intros [= <-]. specialize (IH r eq_refl).
    destruct b; [|exact IH].
    rewrite filter_e_cons, Hp, IH. reflexivity.
Qed.

(** A map whose function fixes its own results fixes its result list. *)
Lemma map_e_twice (f : json -> completion json) (l r : list json) :
  (forall x y, f x = Normal y -> f y = Normal y) ->
  map_e f l = Normal r -> map_e f r = Normal r.
Proof.
  intros Hf. revert r. induction l as [|x l IH]; intros r.
  - intros [= <-]. reflexivity.
  - rewrite map_e_cons.
    destruct (f x) as [y|] eqn:Hy; [|discriminate].
    destruct (map_e f l) as [r'|]; [|discriminate].
    intros [= <-]. rewrite map_e_cons, (Hf x y Hy), (IH r' eq_refl). reflexivity.
Qed.

Lemma map_e_length (f : json -> completion json) (l r : list json) :
  map_e f l = Normal r -> length r = length l.
Proof.
  revert r. induction l as [|x l IH]; intros r.
  - intros [= <-]. reflexivity.
  - rewrite map_e_cons.
    destruct (f x) as [y|]; [|discriminate].
    destruct (map_e f l) as [r'|]; [|discriminate].
    intros [= <-]. cbn. f_equal. apply IH. reflexivity.
Qed.

Lemma member_defined (j : json) (k : string) (v : value) :
  member j k = Normal v -> v = prop j k /\ j <> JNull.
Proof. destruct j; cbn; try discriminate; intros [= <-]; split; congruence. Qed.

Lemma member_spread_with_id (x v : json) (id : value) :
  member x "id" = Normal id -> member (spread_with x "cards" v) "id" = Normal id.
Proof.
  intros H. apply member_defined in H as [-> _].
  unfold member, spread_with. fold (spread_with x "cards" v).
  rewrite prop_id_spread_with. reflexivity.
Qed.

Lemma member_spread_with_cards (x v : json) :
  member (spread_with x "cards" v) "cards" = Normal (J v).
Proof.
  unfold member, spread_with. fold (spread_with x "cards" v).
  rewrite prop_cards_spread_with. reflexivity.
Qed.

Lemma without_card_twice (cur cardId : value) (x y : json) :
  without_card cur cardId x = Normal y -> without_card cur cardId y = Normal y.
Proof.
  unfold without_card. run.
  destruct (member x "id") as [id|] eqn:Hid; [|discriminate]. cbn.
  destruct (strict_eq id cur) eqn:Hcur; cbn.
  - destruct (member x "cards") as [cards|]; [|discriminate]. cbn.
    destruct (call_filter (or_empty cards) (lacks_id cardId)) as [kept|] eqn:Hk;
      [|discriminate].
    cbn. intros [= <-].
    rewrite (member_spread_with_id _ _ _ Hid). cbn. rewrite Hcur.
    rewrite member_spread_with_cards. cbn.
    assert (Hk' : call_filter (JArr kept) (lacks_id cardId) = Normal kept).
    { unfold call_filter in *. destruct (or_empty cards); try discriminate.
      exact (filter_e_twice _ _ _ Hk). }
    rewrite Hk'. cbn. rewrite spread_with_twice. reflexivity.
  - intros [= <-]. rewrite Hid. cbn. rewrite Hcur. reflexivity.
Qed.

Lemma map_e_pure (f : json -> completion json) (g : json -> json) (l : list json) :
  (forall x, In x l -> f x = Normal (g x)) -> map_e f l = Normal (map g l).
Proof.
  induction l as [|x l IH]; intros H; [reflexivity|].
  rewrite map_e_cons, (H x) by (left; reflexivity).
  rewrite IH by (intros; apply H; right; assumption). reflexivity.
Qed.

Lemma filter_e_pure (p : json -> completion bool) (q : json -> bool) (l : list json) :
  (forall x, In x l -> p x = Normal (q x)) -> filter_e p l = Normal (List.filter q l).
Proof.
  induction l as [|x l IH]; intros H; [reflexivity|].
  rewrite filter_e_cons, (H x) by (left; reflexivity).
  rewrite IH by (intros; apply H; right; assumption). reflexivity.
Qed.

Lemma find_e_pure (p : json -> completion bool) (q : json -> bool) (l : list json) :
  (forall x, In x l -> p x = Normal (q x)) ->
  find_e p l = Normal (match List.find q l with Some x => J x | None => undefined end).
Proof.
  induction l as [|x l IH]; intros H; [reflexivity|].
  rewrite find_e_cons, (H x) by (left; reflexivity). cbn.
  destruct (q x); [reflexivity|]. apply IH. intros; apply H; right; assumption.
Qed.

Lemma some_e_pure (p : json -> completion bool) (q : json -> bool) (l : list json) :
  (forall x, In x l -> p x = Normal (q x)) -> some_e p l = Normal (existsb q l).
Proof.
  induction l as [|x l IH]; intros H; [reflexivity|].
  rewrite some_e_cons, (H x) by (left; reflexivity). cbn.
  destruct (q x); [reflexivity|]. apply IH. intros; apply H; right; assumption.
Qed.

(** ** Well-formed decks and cards *)

Lemma is_deck_obj (d : json) : is_deck d = true -> exists fs, d = JObj fs.
Proof. destruct d; try discriminate. eauto. Qed.

Lemma is_card_obj (c : json) : is_card c = true -> exists fs, c = JObj fs.
Proof. destruct c; try discriminate. eauto. Qed.

Lemma is_deck_cards (d : json) :
  is_deck d = true ->
  prop d "cards" = J (JArr (deck_cards d)) /\ forallb is_card (deck_cards d) = true.
Proof.
  intros H. destruct (is_deck_obj d H) as [fs ->]. unfold deck_cards.
  cbn in *. destruct (lookup_field "cards" fs) as [|[]]; cbn in H;
    rewrite ?andb_false_r in H; try discriminate.
  split; [reflexivity|]. apply andb_prop in H. tauto.
Qed.

Lemma is_deck_id (d : json) :
  is_deck d = true -> exists x, deck_id d = J (JStr x).
Proof.
  intros H. destruct (is_deck_obj d H) as [fs ->]. unfold deck_id. cbn in *.
  destruct (lookup_field "id" fs) as [|[]]; try discriminate. eauto.
Qed.

Lemma is_deck_name (d : json) :
  is_deck d = true -> exists x, prop d "name" = J (JStr x).
Proof.
  intros H. destruct (is_deck_obj d H) as [fs ->]. cbn in *.
  destruct (lookup_field "name" fs) as [|[]]; cbn in H;
    rewrite ?andb_false_r in H; try discriminate. eauto.
Qed.

Lemma member_deck (d : json) (k : string) :
  is_deck d = true -> member d k = Normal (prop d k).
Proof. intros H. destruct (is_deck_obj d H) as [fs ->]. reflexivity. Qed.

Lemma member_card (c : json) (k : string) :
  is_card c = true -> member c k = Normal (prop c k).
Proof. intros H. destruct (is_card_obj c H) as [fs ->]. reflexivity. Qed.

Lemma decks_ok_elem (l : list json) (d : json) :
  forallb is_deck l = true -> In d l -> is_deck d = true.
Proof. intros H Hd. rewrite forallb_forall in H. apply H, Hd. Qed.

Lemma has_id_deck (x : value) (d : json) :
  is_deck d = true -> has_id x d = Normal (strict_eq (deck_id d) x).
Proof. intros H. unfold has_id. rewrite member_deck by exact H. reflexivity. Qed.

Lemma lacks_id_deck (x : value) (d : json) :
  is_deck d = true -> lacks_id x d = Normal (negb (strict_eq (deck_id d) x)).
Proof. intros H. unfold lacks_id. rewrite member_deck by exact H. reflexivity. Qed.

Lemma lacks_id_card (x : value) (c : json) :
  is_card c = true -> lacks_id x c = Normal (negb (strict_eq (prop c "id") x)).
Proof. intros H. unfold lacks_id. rewrite member_card by exact H. reflexivity. Qed.

(** The deck [find] returns, for well-formed decks. *)
Lemma find_deck (x : value) (l : list json) :
  forallb is_deck l = true ->
  find_e (has_id x) l =
    Normal (match List.find (fun d => strict_eq (deck_id d) x) l with
            | Some d => J d
            | None => undefined
            end).
Proof.
  intros H. apply find_e_pure. intros d Hd. apply has_id_deck.
  exact (decks_ok_elem l d H Hd).
Qed.

Lemma filter_decks (x : value) (l : list json) :
  forallb is_deck l = true ->
  filter_e (lacks_id x) l =
    Normal (List.filter (fun d => negb (strict_eq (deck_id d) x)) l).
Proof.
  intros H. apply filter_e_pure. intros d Hd. apply lacks_id_deck.
  exact (decks_ok_elem l d H Hd).
Qed.

Lemma filter_cards (x : value) (cs : list json) :
  forallb is_card cs = true ->
  call_filter (JArr cs) (lacks_id x) =
    Normal (List.filter (fun c => negb (strict_eq (prop c "id") x)) cs).
Proof.
  intros H. unfold call_filter. apply filter_e_pure. intros c Hc.
  apply lacks_id_card. rewrite forallb_forall in H. apply H, Hc.
Qed.

(** ** Deleting a card *)

Lemma deleteCard_run (cardId : value) (s : State) :
  deleteCard cardId Delete s =
    match map_e (without_card (currentDeck s) cardId) (decks s) with
    | Thrown e => mkRun (Thrown e) s [ConfirmDeleteCard]
    | Normal updatedDecks =>
        let s' := saved updatedDecks (final (setDecks updatedDecks s)) in
        also (ConfirmDeleteCard :: if storage_ok s then [] else [SaveError])
          match call_filter (flashcards s) (lacks_id cardId) with
          | Thrown e => mkRun (Thrown e) s' []
          | Normal updatedCards =>
              mkRun (Normal tt) (final (setFlashcards (JArr updatedCards) s')) []
          end
    end.
Proof.
  destruct s as [f ds c a1 a2 q a n m i sa lo sv st ok].
  unfold deleteCard. run.
  destruct (map_e _ ds) as [u|e]; cbn; [|reflexivity].
  rewrite saveData_run. cbn.
  destruct (call_filter f _); destruct ok; reflexivity.
Qed.

Lemma deleteCard_cancel (cardId : value) (s : State) :
  deleteCard cardId Cancel s = mkRun (Normal tt) s [ConfirmDeleteCard].
Proof. destruct s. reflexivity. Qed.

Lemma deleteCard_twice (cardId : value) (s : State) :
  deleteCard cardId Delete (final (deleteCard cardId Delete s))
  = deleteCard cardId Delete s.
Proof.
  rewrite (deleteCard_run cardId s).
  destruct (map_e _ (decks s)) as [u|e] eqn:Hu.
  2:{ cbn. rewrite deleteCard_run, Hu. reflexivity. }
  pose proof (map_e_twice _ _ _ (without_card_twice (currentDeck s) cardId) Hu) as Hu'.
  destruct s as [f ds c a1 a2 q a n m i sa lo sv st ok]. cbn in *.
  destruct (call_filter f (lacks_id cardId)) as [k|e] eqn:Hk; cbn.
  - rewrite deleteCard_run. cbn. rewrite Hu'. cbn.
    assert (Hk' : call_filter (JArr k) (lacks_id cardId) = Normal k).
    { unfold call_filter in *. destruct f; try discriminate.
      exact (filter_e_twice _ _ _ Hk). }
    rewrite Hk'. unfold saved, written. cbn. destruct ok; reflexivity.
  - rewrite deleteCard_run. cbn. rewrite Hu', Hk. unfold saved, written. cbn.
    destruct ok; reflexivity.
Qed.

(** Decks with distinct ids are told apart by their ids. *)
Lemma deck_by_id (l : list json) (x d : json) :
  NoDup (deck_ids l) -> In x l -> In d l -> deck_id x = deck_id d -> x = d.
Proof.
  induction l as [|y l IH]; cbn; [contradiction|].
  intros Hnd Hx Hd E. apply NoDup_cons in Hnd as [Hy Hnd].
  assert (Hin : forall z, In z l -> deck_id z ∈ deck_ids l).
  { intros z Hz. apply list_elem_of_In, in_map, Hz. }
  destruct Hx as [<-|Hx], Hd as [<-|Hd]; auto.
  - destruct Hy. rewrite E. auto.
  - destruct Hy. rewrite <- E. auto.
Qed.

Lemma without_card_deck (cur cardId : value) (x : json) :
  is_deck x = true ->
  without_card cur cardId x =
    Normal (if strict_eq (deck_id x) cur
            then spread_with x "cards"
                   (JArr (List.filter (fun c => negb (strict_eq (prop c "id") cardId))
                            (deck_cards x)))
            else x).
Proof.
  intros H. unfold without_card. rewrite !member_deck by exact H. run.
  fold (deck_id x). destruct (strict_eq (deck_id x) cur); [|reflexivity].
  destruct (is_deck_cards x H) as [-> Hc]. cbn.
  rewrite filter_cards by exact Hc. reflexivity.
Qed.

Lemma filter_absent (cardId : value) (cs : list json) :
  card_in cardId cs = false ->
  List.filter (fun c => negb (strict_eq (prop c "id") cardId)) cs = cs.
Proof.
  unfold card_in. induction cs as [|c cs IH]; cbn; [reflexivity|].
  destruct (strict_eq (prop c "id") cardId); cbn; [discriminate|].
  intros H. rewrite (IH H). reflexivity.
Qed.

Lemma spread_with_same_cards (d : json) :
  is_deck d = true -> spread_with d "cards" (JArr (deck_cards d)) = d.
Proof.
  intros H. destruct (is_deck_cards d H) as [Hc _].
  destruct (is_deck_obj d H) as [fs ->]. unfold spread_with. cbn in *.
  rewrite set_field_same by exact Hc. reflexivity.
Qed.

Lemma deleteCard_absent (cardId : value) (s : State) (d : json) :
  well_formed (decks s) ->
  active_deck s = Some d ->
  flashcards s = JArr (deck_cards d) ->
  card_in cardId (deck_cards d) = false ->
  deleteCard cardId Delete s =
    mkRun (Normal tt)
      (final (setFlashcards (flashcards s) (saved (decks s) (final (setDecks (decks s) s)))))
      (ConfirmDeleteCard :: if storage_ok s then [] else [SaveError]).
Proof.
  intros [Hok Hnd] Hact Hf Habs.
  apply find_some in Hact as [Hd Hcur].
  pose proof (decks_ok_elem _ _ Hok Hd) as Hdeck.
  rewrite deleteCard_run.
  assert (Hmap : map_e (without_card (currentDeck s) cardId) (decks s) = Normal (decks s)).
  { rewrite <- (map_id (decks s)) at 2. apply map_e_pure. intros x Hx.
    rewrite without_card_deck by exact (decks_ok_elem _ _ Hok Hx).
    destruct (strict_eq (deck_id x) (currentDeck s)) eqn:E; [|reflexivity].
    assert (x = d) as ->.
    { apply (deck_by_id (decks s)); auto.
      apply strict_eq_true in E, Hcur. congruence. }
    rewrite filter_absent by exact Habs.
    rewrite spread_with_same_cards by exact Hdeck. reflexivity. }
  rewrite Hmap, Hf. cbn.
  rewrite filter_cards by apply (is_deck_cards d Hdeck).
  rewrite filter_absent by exact Habs. cbn. rewrite app_nil_r. reflexivity.
Qed.

(** C7. [deleteCard] is idempotent: whichever button answers the alert,
    a second [deleteCard] of the same id answered the same way runs as
    the first did and leaves the state the first one left, so the active
    deck and its card count are unchanged; and a confirmed [deleteCard]
    of an id that no card of the active deck has completes normally and
    changes neither the decks, the card list nor the active deck. *)
Theorem deleteCard_idempotent (cardId : value) (choice : button) (s : State) :
  let once := deleteCard cardId choice s in
  let twice := deleteCard cardId choice (final once) in
  final twice = final once /\
  outcome twice = outcome once /\
  active_deck (final twice) = active_deck (final once) /\
  (forall d,
      well_formed (decks s) ->
      active_deck s = Some d ->
      flashcards s = JArr (deck_cards d) ->
      card_in cardId (deck_cards d) = false ->
      outcome (deleteCard cardId Delete s) = Normal tt /\
      decks (final (deleteCard cardId Delete s)) = decks s /\
      flashcards (final (deleteCard cardId Delete s)) = flashcards s /\
      currentDeck (final (deleteCard cardId Delete s)) = currentDeck s).
Proof.
  cbv zeta.
  assert (Htwice : deleteCard cardId choice (final (deleteCard cardId choice s))
                   = deleteCard cardId choice s).
  { destruct choice; [rewrite !deleteCard_cancel; reflexivity|apply deleteCard_twice]. }
  rewrite Htwice. repeat split; try reflexivity.
  all: rewrite (deleteCard_absent cardId s d) by assumption; reflexivity.
Qed.

Lemma deleteCard_idempotent_witness :
  decks (final (deleteCard (JNum 7) Delete two_cards)) = decks two_cards.
Proof.
  refine (proj1 (proj2 (proj2 (proj2 (proj2 (deleteCard_idempotent (JNum 7) Delete two_cards)))
                          _ _ _ _ _))).
  - split; [reflexivity|]. repeat constructor. intros H. inversion H.
  - reflexivity.
  - reflexivity.
  - reflexivity.
Defined.

(** ** Adding a card *)

Lemma saveCard_run (now : Z) (iso : string) (s : State) :
  saveCard now iso s =
    if negb (truthy (JStr (trim (question s)))) || negb (truthy (JStr (trim (answer s))))
    then mkRun (Normal tt) s [FillBothFields]
    else
      let newCard := new_card now iso (trim (question s)) (trim (answer s)) in
      match map_e (with_card (currentDeck s) newCard) (decks s) with
      | Thrown e => mkRun (Normal tt) s [SaveCardFailed]
      | Normal u =>
          let s' := final (setShowAddModal false (final (setAnswer "" (final (setQuestion ""
                      (saved u (final (setDecks u s))))))))  in
          also ((if storage_ok s then [] else [SaveError]) ++ [CardAdded])
            match spread (flashcards s) with
            | Thrown e => mkRun (Thrown e) s' []
            | Normal prev =>
                mkRun (Normal tt) (final (setFlashcards (JArr (prev ++ [newCard])) s')) []
            end
      end.
Proof.
  destruct s as [f ds c a1 a2 q a n m i sa lo sv st ok].
  unfold saveCard. run.
  destruct (negb _ || negb _); [reflexivity|].
  destruct (map_e _ ds) as [u|e]; cbn; [|reflexivity].
  rewrite saveData_run. cbn.
  destruct (spread f); destruct ok; reflexivity.
Qed.

Lemma with_card_deck (cur : value) (c x : json) :
  is_deck x = true ->
  with_card cur c x =
    Normal (if strict_eq (deck_id x) cur
            then spread_with x "cards" (JArr (deck_cards x ++ [c]))
            else x).
Proof.
  intros H. unfold with_card. rewrite !member_deck by exact H. run.
  fold (deck_id x). destruct (strict_eq (deck_id x) cur); [|reflexivity].
  destruct (is_deck_cards x H) as [-> Hc]. reflexivity.
Qed.

Lemma deck_id_spread_with (x v : json) :
  deck_id (spread_with x "cards" v) = deck_id x.
Proof. apply prop_id_spread_with. Qed.

Lemma deck_cards_spread_with (x : json) (cs : list json) :
  deck_cards (spread_with x "cards" (JArr cs)) = cs.
Proof. unfold deck_cards. rewrite prop_cards_spread_with. reflexivity. Qed.

(** A map that keeps the ids keeps which deck is found. *)
Lemma find_map_same_id (g : json -> json) (cur : value) (l : list json) :
  (forall x, deck_id (g x) = deck_id x) ->
  List.find (fun d => strict_eq (deck_id d) cur) (map g l)
  = option_map g (List.find (fun d => strict_eq (deck_id d) cur) l).
Proof.
  intros Hg. induction l as [|x l IH]; cbn; [reflexivity|].
  rewrite Hg. destruct (strict_eq (deck_id x) cur); [reflexivity|exact IH].
Qed.

Lemma trim_nonempty (t : string) : t <> "" -> negb (truthy (JStr t)) = false.
Proof. intros H. cbn. destruct (String.eqb_spec t ""); [contradiction|reflexivity]. Qed.

Lemma trim_empty (t : string) : t = "" -> negb (truthy (JStr t)) = true.
Proof. intros ->. reflexivity. Qed.

(** C6. With both trimmed fields non-empty, [saveCard] appends the new
    card to the active deck: its card count grows by exactly one and the
    card is found there by its id; the card list on screen grows by the
    same card.  With a trimmed field empty it raises the validation alert
    and changes nothing. *)
Theorem saveCard_adds_one_card (now : Z) (iso : string) (s : State) (d : json) :
  forallb is_deck (decks s) = true ->
  active_deck s = Some d ->
  let q := trim (question s) in
  let a := trim (answer s) in
  let r := saveCard now iso s in
  (q <> "" -> a <> "" ->
     exists d',
       active_deck (final r) = Some d' /\
       deck_cards d' = deck_cards d ++ [new_card now iso q a] /\
       length (deck_cards d') = S (length (deck_cards d)) /\
       prop (new_card now iso q a) "id" = J (JNum now) /\
       In (new_card now iso q a)
          (List.filter (fun c => strict_eq (prop c "id") (JNum now)) (deck_cards d')) /\
       length (decks (final r)) = length (decks s) /\
       forall cards, flashcards s = JArr cards ->
         outcome r = Normal tt /\
         flashcards (final r) = JArr (cards ++ [new_card now iso q a])) /\
  (q = "" \/ a = "" -> r = mkRun (Normal tt) s [FillBothFields]).
Proof.
  intros Hok Hact q a r. subst r. rewrite saveCard_run. fold q a. split.
  - intros Hq Ha. rewrite (trim_nonempty q Hq), (trim_nonempty a Ha). cbn [orb].
    cbv zeta. set (c := new_card now iso q a).
    set (g := fun x => if strict_eq (deck_id x) (currentDeck s)
                       then spread_with x "cards" (JArr (deck_cards x ++ [c])) else x).
    assert (Hmap : map_e (with_card (currentDeck s) c) (decks s) = Normal (map g (decks s))).
    { apply map_e_pure. intros x Hx. apply with_card_deck, (decks_ok_elem _ _ Hok Hx). }
    assert (Hg : forall x, deck_id (g x) = deck_id x).
    { intros x. unfold g. destruct (strict_eq _ _); [apply deck_id_spread_with|reflexivity]. }
    rewrite Hmap. exists (g d).
    assert (Hd : strict_eq (deck_id d) (currentDeck s) = true).
    { apply find_some in Hact. tauto. }
    assert (Hcards : deck_cards (g d) = deck_cards d ++ [c]).
    { unfold g. rewrite Hd. apply deck_cards_spread_with. }
    assert (Hact' : forall st, decks st = map g (decks s) -> currentDeck st = currentDeck s ->
                               active_deck st = Some (g d)).
    { intros st Hds Hc. unfold active_deck. rewrite Hds, Hc, find_map_same_id by exact Hg.
      unfold active_deck in Hact. rewrite Hact. reflexivity. }
    split; [|split; [exact Hcards|split; [|split; [reflexivity|split; [|split]]]]].
    + destruct (spread (flashcards s)); apply Hact'; reflexivity.
    + rewrite Hcards, length_app. cbn. lia.
    + rewrite Hcards. apply filter_In. split.
      * apply in_or_app. right. left. reflexivity.
      * cbn. apply Z.eqb_refl.
    + destruct (spread (flashcards s)); cbn; apply length_map.
    + intros cards Hf. rewrite Hf. cbn. split; reflexivity.
  - intros [E|E]; rewrite (trim_empty _ E); cbn; [reflexivity|].
    rewrite orb_true_r. reflexivity.
Qed.

Lemma saveCard_adds_one_card_witness :
  exists d',
    active_deck (final (saveCard 1700000100000 "2023-11-14T22:15:00.000Z" typing_a_card))
      = Some d' /\
    deck_cards d' = [new_card 1700000100000 "2023-11-14T22:15:00.000Z" "2+2?" "4"].
Proof.
  pose proof (saveCard_adds_one_card 1700000100000 "2023-11-14T22:15:00.000Z"
                typing_a_card default_deck eq_refl eq_refl) as [H _].
  destruct H as (d' & Hact & Hcards & _); [discriminate|discriminate|].
  exists d'. split; [exact Hact|exact Hcards].
Defined.

(** ** Creating a deck *)

Lemma createDeck_run (now : Z) (s : State) :
  createDeck now s =
    let name := trim (newDeckName s) in
    if negb (truthy (JStr name)) then mkRun (Normal tt) s [EnterDeckName]
    else
      match some_e (same_name (toLowerCase name)) (decks s) with
      | Thrown e => mkRun (Thrown e) s []
      | Normal true => mkRun (Normal tt) s [DuplicateDeckName]
      | Normal false =>
          let u := decks s ++ [new_deck now name] in
          mkRun (Normal tt)
            (final (setShowDeckModal false (final (setNewDeckName ""
               (saved u (final (setDecks u s)))))))
            ((if storage_ok s then [] else [SaveError]) ++ [DeckCreated])
      end.
Proof.
  destruct s as [f ds c a1 a2 q a n m i sa lo sv st ok].
  unfold createDeck. run.
  destruct (negb _); [reflexivity|].
  destruct (some_e _ ds) as [[|]|e]; cbn; try reflexivity.
  rewrite saveData_run. cbn. destruct ok; reflexivity.
Qed.

Lemma same_name_deck (lowered : string) (d : json) :
  is_deck d = true ->
  same_name lowered d = Normal (String.eqb (toLowerCase (deck_name d)) lowered).
Proof.
  intros H. unfold same_name, deck_name. rewrite member_deck by exact H.
  destruct (is_deck_name d H) as [x ->]. reflexivity.
Qed.

Lemma some_same_name (n : string) (l : list json) :
  forallb is_deck l = true ->
  some_e (same_name (toLowerCase n)) l = Normal (name_taken n l).
Proof.
  intros H. apply some_e_pure. intros d Hd.
  apply same_name_deck, (decks_ok_elem _ _ H Hd).
Qed.

(** C4. [createDeck] raises a validation alert and changes nothing when
    the trimmed name is empty or is, letter case apart, the name of a
    deck; otherwise it appends one deck with the trimmed name and no
    cards at the end of the list, hands the new list to [saveData], and
    leaves the active deck id and the card list as they were. *)
Theorem createDeck_validates_and_appends (now : Z) (s : State) :
  forallb is_deck (decks s) = true ->
  let name := trim (newDeckName s) in
  let r := createDeck now s in
  (name = "" -> r = mkRun (Normal tt) s [EnterDeckName]) /\
  (name <> "" -> name_taken name (decks s) = true ->
     r = mkRun (Normal tt) s [DuplicateDeckName]) /\
  (name <> "" -> name_taken name (decks s) = false ->
     outcome r = Normal tt /\
     decks (final r) = decks s ++ [new_deck now name] /\
     deck_name (new_deck now name) = name /\
     deck_cards (new_deck now name) = [] /\
     storage (final r) = written (decks s ++ [new_deck now name]) s /\
     currentDeck (final r) = currentDeck s /\
     flashcards (final r) = flashcards s).
Proof.
  intros Hok name r. subst r. rewrite createDeck_run. fold name. cbv zeta.
  split; [|split].
  - intros E. rewrite (trim_empty _ E). reflexivity.
  - intros Hn Ht. rewrite (trim_nonempty _ Hn), some_same_name, Ht by exact Hok.
    reflexivity.
  - intros Hn Ht. rewrite (trim_nonempty _ Hn), some_same_name, Ht by exact Hok.
    cbn. unfold written. repeat split; reflexivity.
Qed.

Lemma createDeck_validates_and_appends_witness :
  decks (final (createDeck 1700000000000 naming_a_deck))
  = [default_deck; new_deck 1700000000000 "Math"] /\
  currentDeck (final (createDeck 1700000000000 naming_a_deck)) = J (JStr "default").
Proof.
  pose proof (createDeck_validates_and_appends 1700000000000 naming_a_deck eq_refl)
    as (_ & _ & H).
  destruct H as (_ & Hd & _ & _ & _ & Hc & _).
  - discriminate.
  - reflexivity.
  - split; [exact Hd|exact Hc].
Defined.

(** ** Deleting and switching decks *)

Lemma deleteDeck_last (deckId : value) (choice : button) (s : State) :
  (length (decks s) <= 1)%nat ->
  deleteDeck deckId choice s = mkRun (Normal tt) s [CannotDelete].
Proof.
  intros H. destruct s as [f ds c a1 a2 q a n m i sa lo sv st ok]. cbn in H.
  unfold deleteDeck. run.
  destruct (Nat.leb_spec (length ds) 1); [reflexivity|lia].
Qed.

Lemma forallb_filter (p q : json -> bool) (l : list json) :
  forallb p l = true -> forallb p (List.filter q l) = true.
Proof.
  rewrite !forallb_forall. intros H x Hx. apply filter_In in Hx. apply H. tauto.
Qed.

Lemma deleteDeck_cancel (deckId : value) (s : State) :
  forallb is_deck (decks s) = true ->
  (2 <= length (decks s))%nat ->
  deleteDeck deckId Cancel s =
    match List.find (fun d => strict_eq (deck_id d) deckId) (decks s) with
    | None => mkRun (Thrown TypeError) s []
    | Some d => mkRun (Normal tt) s [ConfirmDeleteDeck (prop d "name")]
    end.
Proof.
  intros Hok Hlen. destruct s as [f ds c a1 a2 q a n m i sa lo sv st ok]. cbn in *.
  unfold deleteDeck. run.
  destruct (Nat.leb_spec (length ds) 1); [lia|].
  rewrite find_deck by exact Hok. cbn.
  destruct (List.find _ ds) as [d|] eqn:Hfind; cbn; [|reflexivity].
  apply find_some in Hfind as [Hd _].
  rewrite member_deck by exact (decks_ok_elem _ _ Hok Hd). reflexivity.
Qed.

Lemma deleteDeck_delete (deckId : value) (s : State) :
  forallb is_deck (decks s) = true ->
  (2 <= length (decks s))%nat ->
  deleteDeck deckId Delete s =
    match List.find (fun d => strict_eq (deck_id d) deckId) (decks s) with
    | None => mkRun (Thrown TypeError) s []
    | Some d =>
        let u := List.filter (fun d => negb (strict_eq (deck_id d) deckId)) (decks s) in
        let s' := saved u (final (setDecks u s)) in
        also (ConfirmDeleteDeck (prop d "name") :: if storage_ok s then [] else [SaveError])
          (if strict_eq (currentDeck s) deckId then
             match u with
             | [] => mkRun (Thrown TypeError) s' []
             | first :: _ =>
                 mkRun (Normal tt)
                   (final (setFlashcards (JArr (deck_cards first))
                      (final (setCurrentDeck (deck_id first) s')))) []
             end
           else mkRun (Normal tt) s' [])
    end.
Proof.
  intros Hok Hlen. destruct s as [f ds c a1 a2 q a n m i sa lo sv st ok]. cbn in *.
  unfold deleteDeck. run.
  destruct (Nat.leb_spec (length ds) 1); [lia|].
  rewrite find_deck by exact Hok. cbn.
  destruct (List.find _ ds) as [d|] eqn:Hfind; cbn; [|reflexivity].
  apply find_some in Hfind as [Hd _].
  rewrite member_deck by exact (decks_ok_elem _ _ Hok Hd). cbn.
  rewrite filter_decks by exact Hok. cbn.
  rewrite saveData_run. cbn.
  pose proof (forallb_filter is_deck (fun d => negb (strict_eq (deck_id d) deckId)) ds Hok) as Hu.
  destruct (strict_eq c deckId); cbn; [|destruct ok; reflexivity].
  destruct (List.filter _ ds) as [|first u]; cbn.
  - destruct ok; reflexivity.
  - cbn in Hu. apply andb_prop in Hu as [Hfirst _].
    unfold index. cbn. rewrite !member_deck by exact Hfirst. cbn.
    destruct (is_deck_cards first Hfirst) as [-> _]. cbn.
    destruct ok; reflexivity.
Qed.

Lemma truthy_deck (d : json) : is_deck d = true -> truthy (J d) = true.
Proof. intros H. destruct (is_deck_obj d H) as [fs ->]. reflexivity. Qed.

Lemma switchDeck_run (deckId : value) (s : State) :
  forallb is_deck (decks s) = true ->
  switchDeck deckId s =
    mkRun (Normal tt)
      match List.find (fun d => strict_eq (deck_id d) deckId) (decks s) with
      | Some d => final (setFlashcards (JArr (deck_cards d)) (final (setCurrentDeck deckId s)))
      | None => final (setCurrentDeck deckId s)
      end [].
Proof.
  intros Hok. destruct s as [f ds c a1 a2 q a n m i sa lo sv st ok]. cbn in *.
  unfold switchDeck. run. rewrite find_deck by exact Hok. cbn.
  destruct (List.find _ ds) as [d|] eqn:Hfind; cbn; [|reflexivity].
  apply find_some in Hfind as [Hd _].
  pose proof (decks_ok_elem _ _ Hok Hd) as Hdeck.
  rewrite truthy_deck, member_deck by exact Hdeck. cbn.
  destruct (is_deck_cards _ Hdeck) as [-> _]. reflexivity.
Qed.

(** Whatever the decks are, [switchDeck] assigns the id it is given. *)
Lemma switchDeck_sets_id (deckId : value) (s : State) :
  currentDeck (final (switchDeck deckId s)) = deckId /\
  decks (final (switchDeck deckId s)) = decks s.
Proof.
  destruct s as [f ds c a1 a2 q a n m i sa lo sv st ok].
  unfold switchDeck. run.
  destruct (find_e (has_id deckId) ds) as [v|e]; cbn; [|auto].
  destruct (truthy v); cbn; [|auto].
  destruct (member v "cards"); cbn; auto.
Qed.

(** C2 as written does not hold of [switchDeck]: the function assigns
    the id it is given before it looks the deck up, so with an id that
    matches no deck the active deck id changes all the same, and only the
    card list stays. *)
Theorem switchDeck_unknown_id_is_assigned :
  (forall deckId s, currentDeck (final (switchDeck deckId s)) = deckId) /\
  List.find (fun d => strict_eq (deck_id d) (JStr "nope")) (decks (initial None true)) = None /\
  currentDeck (initial None true) = J (JStr "default") /\
  currentDeck (final (switchDeck (JStr "nope") (initial None true))) = J (JStr "nope") /\
  active_deck (final (switchDeck (JStr "nope") (initial None true))) = None /\
  flashcards (final (switchDeck (JStr "nope") (initial None true)))
    = flashcards (initial None true).
Proof.
  split; [intros deckId s; apply switchDeck_sets_id|].
  vm_compute. repeat split; reflexivity.
Qed.

(** ** Loading *)

Lemma loadData_run (s : State) :
  loadData s =
    if storage_ok s then
      match storage s with
      | None | Some EmptyText => mkRun (Normal tt) (final (setIsLoading false s)) []
      | Some Malformed => mkRun (Normal tt) (final (setIsLoading false s)) [ErrorLoadingData]
      | Some (JsonText (JArr (d :: l))) =>
          let s1 := final (setDecks (d :: l) s) in
          match find_e (has_id (currentDeck s)) (d :: l) with
          | Thrown _ => mkRun (Normal tt) (final (setIsLoading false s1)) [ErrorLoadingData]
          | Normal v =>
              if truthy v then
                match member v "cards" with
                | Thrown _ =>
                    mkRun (Normal tt) (final (setIsLoading false s1)) [ErrorLoadingData]
                | Normal (J (JArr c)) =>
                    mkRun (Normal tt)
                      (final (setIsLoading false (final (setFlashcards (JArr c) s1)))) []
                | Normal _ => mkRun (Normal tt) (final (setIsLoading false s1)) []
                end
              else mkRun (Normal tt) (final (setIsLoading false s1)) []
          end
      | Some (JsonText _) =>
          mkRun (Normal tt) (final (setIsLoading false (final (resetToDefault s)))) []
      end
    else mkRun (Normal tt) (final (setIsLoading false s)) [ErrorLoadingData].
Proof.
  destruct s as [f ds c a1 a2 q a n m i sa lo sv st ok].
  unfold loadData, AsyncStorage_getItem. run.
  destruct ok; [|reflexivity].
  destruct st as [[| |v]|]; cbn; try reflexivity.
  destruct v as [| | | |[|d l]|]; cbn;
    rewrite ?resetToDefault_run; cbn; try reflexivity.
  destruct (find_e _ _) as [v|e]; cbn; [|reflexivity].
  destruct (truthy v); cbn; [|reflexivity].
  destruct (member v "cards") as [[|[]]|]; reflexivity.
Qed.

Lemma resetToDefault_default (s : State) :
  outcome (resetToDefault s) = Normal tt /\
  default_state (final (resetToDefault s)) /\
  storage (final (resetToDefault s)) = written [default_deck] s.
Proof. rewrite resetToDefault_run. cbn. unfold default_state. cbn. auto. Qed.

Lemma loadData_cases (s : State) :
  let r := loadData s in
  outcome r = Normal tt /\
  (storage_ok s = true ->
     match storage s with
     | None | Some EmptyText =>
         final r = final (setIsLoading false s) /\ shown r = [] /\
         storage (final r) = storage s /\
         (default_state s -> default_state (final r))
     | Some Malformed =>
         final r = final (setIsLoading false s) /\ shown r = [ErrorLoadingData] /\
         storage (final r) = storage s /\
         (default_state s -> default_state (final r)) /\
         default_state (final (resetToDefault (final r))) /\
         storage (final (resetToDefault (final r))) = Some (JsonText (JArr [default_deck]))
     | Some (JsonText (JArr (d :: l))) =>
         decks (final r) = d :: l /\ currentDeck (final r) = currentDeck s /\
         storage (final r) = storage s
     | Some (JsonText _) =>
         default_state (final r) /\
         storage (final r) = Some (JsonText (JArr [default_deck]))
     end) /\
  (storage_ok s = false ->
     final r = final (setIsLoading false s) /\ shown r = [ErrorLoadingData]).
Proof.
  cbv zeta. rewrite loadData_run.
  destruct s as [f ds c a1 a2 q a n m i sa lo sv st ok]. cbn.
  destruct ok; cbn.
  2:{ split; [reflexivity|]. split; [discriminate|]. auto. }
  assert (Hreset : forall s0, storage_ok s0 = true ->
            default_state (final (resetToDefault s0)) /\
            storage (final (resetToDefault s0)) = Some (JsonText (JArr [default_deck]))).
  { intros s0 H0. destruct (resetToDefault_default s0) as (_ & Hd & Hs).
    split; [exact Hd|]. rewrite Hs. unfold written. rewrite H0. reflexivity. }
  destruct st as [[| |v]|]; cbn.
  - split; [reflexivity|]. split; [|discriminate]. intros _.
    repeat (split; [reflexivity|]). intros H. exact H.
  - split; [reflexivity|]. split; [|discriminate]. intros _.
    repeat (split; [reflexivity|]). split; [intros H; exact H|].
    apply Hreset. reflexivity.
  - assert (Hdef : outcome (mkRun (Normal tt)
                     (final (setIsLoading false (final (resetToDefault
                        (mkState f ds c a1 a2 q a n m i sa lo sv (Some (JsonText v)) true)))))
                     ([] : list alert)) = Normal tt /\
                   (true = true ->
                    default_state (final (setIsLoading false (final (resetToDefault
                        (mkState f ds c a1 a2 q a n m i sa lo sv (Some (JsonText v)) true))))) /\
                    storage (final (setIsLoading false (final (resetToDefault
                        (mkState f ds c a1 a2 q a n m i sa lo sv (Some (JsonText v)) true)))))
                    = Some (JsonText (JArr [default_deck])))).
    { split; [reflexivity|]. intros _. rewrite resetToDefault_run. cbn.
      unfold default_state. cbn. auto. }
    destruct v as [| | | |[|d l]|]; cbn;
      try (destruct Hdef as [Ho Hd]; split; [exact Ho|]; split; [exact Hd|discriminate]).
    destruct (find_e _ _) as [v|e]; cbn.
    2:{ repeat split; try discriminate; reflexivity. }
    destruct (truthy v); cbn.
    2:{ repeat split; try discriminate; reflexivity. }
    destruct (member v "cards") as [[|[]]|]; cbn;
      repeat split; try discriminate; reflexivity.
  - split; [reflexivity|]. split; [|discriminate]. intros _.
    repeat (split; [reflexivity|]). intros H. exact H.
Qed.

(** C5, as the code has it.  [loadData] never throws.  With the storage
    answering: an absent key or an empty text changes neither the state
    variables nor the storage, so the single default deck of the first
    render stays and nothing is stored; a text that does not parse raises
    the 'Error Loading Data' alert and changes nothing until its OK
    button runs [resetToDefault], which sets the single default deck and
    stores it; a JSON value other than a non-empty array resets to the
    single default deck and stores it; a non-empty array becomes the deck
    list as it is.  With the storage failing, the alert is raised and
    nothing changes. *)
Theorem loadData_fallbacks (s : State) :
  let r := loadData s in
  outcome r = Normal tt /\
  (storage_ok s = true ->
     match storage s with
     | None | Some EmptyText =>
         final r = final (setIsLoading false s) /\ shown r = [] /\
         storage (final r) = storage s /\
         (default_state s -> default_state (final r))
     | Some Malformed =>
         final r = final (setIsLoading false s) /\ shown r = [ErrorLoadingData] /\
         storage (final r) = storage s /\
         (default_state s -> default_state (final r)) /\
         default_state (final (resetToDefault (final r))) /\
         storage (final (resetToDefault (final r))) = Some (JsonText (JArr [default_deck]))
     | Some (JsonText (JArr (d :: l))) =>
         decks (final r) = d :: l /\ currentDeck (final r) = currentDeck s /\
         storage (final r) = storage s
     | Some (JsonText _) =>
         default_state (final r) /\
         storage (final r) = Some (JsonText (JArr [default_deck]))
     end) /\
  (storage_ok s = false ->
     final r = final (setIsLoading false s) /\ shown r = [ErrorLoadingData]).
Proof. exact (loadData_cases s). Qed.

(** The claim C5 as the specification words it fails in three ways: an
    absent key leaves the storage empty, a text that does not parse is
    still in the storage when [loadData] is over, and a non-empty array
    whose elements are not decks becomes the deck list. *)
Lemma loadData_not_as_specified :
  storage (final (loadData (initial None true))) = None /\
  storage (final (loadData (initial (Some Malformed) true))) = Some Malformed /\
  (is_deck (JNum 1) = false /\
   decks (final (loadData (initial (Some (JsonText (JArr [JNum 1]))) true))) = [JNum 1] /\
   storage (final (loadData (initial (Some (JsonText (JArr [JNum 1]))) true)))
     = Some (JsonText (JArr [JNum 1]))).
Proof. vm_compute. repeat split; reflexivity. Qed.

Lemma loadData_fallbacks_witness :
  default_state (final (loadData (initial (Some (JsonText (JObj []))) true))) /\
  storage (final (loadData (initial (Some (JsonText (JObj []))) true)))
    = Some (JsonText (JArr [default_deck])).
Proof.
  exact (proj1 (proj2 (loadData_fallbacks (initial (Some (JsonText (JObj []))) true)))
           eq_refl).
Defined.

(** C8. What [saveData] wrote for a non-empty deck list is what
    [loadData] makes the deck list, in the same run of the application or
    in a later one. *)
Theorem save_then_load_roundtrip (l : list json) (s s' : State) :
  l <> [] ->
  storage_ok s = true ->
  storage_ok s' = true ->
  storage s' = storage (final (saveData (JArr l) s)) ->
  outcome (loadData s') = Normal tt /\
  decks (final (loadData s')) = l.
Proof.
  intros Hl Hok Hok' Hst.
  rewrite saveData_run in Hst. cbn in Hst. unfold written in Hst. rewrite Hok in Hst.
  pose proof (loadData_cases s') as (Ho & Hcases & _).
  split; [exact Ho|]. specialize (Hcases Hok'). rewrite Hst in Hcases.
  destruct l as [|d l]; [contradiction|]. tauto.
Qed.

Lemma save_then_load_roundtrip_witness :
  decks (final (loadData (initial
     (storage (final (saveData (JArr (decks two_cards)) two_cards))) true)))
  = decks two_cards.
Proof.
  refine (proj2 (save_then_load_roundtrip (decks two_cards) two_cards _ _ _ _ _)).
  - discriminate.
  - reflexivity.
  - reflexivity.
  - reflexivity.
Defined.

(** ** The invariant of the deck store *)

Lemma NoDup_ids_filter (q : json -> bool) (l : list json) :
  NoDup (deck_ids l) -> NoDup (deck_ids (List.filter q l)).
Proof.
  induction l as [|x l IH]; cbn; [auto|].
  intros H. apply NoDup_cons in H as [Hx Hl].
  destruct (q x); cbn; [|auto].
  apply NoDup_cons. split; [|auto].
  intros Hin. apply Hx. apply list_elem_of_In in Hin. apply list_elem_of_In.
  unfold deck_ids in *. apply in_map_iff in Hin as (y & Hy & Hin).
  apply filter_In in Hin as [Hin _]. apply in_map_iff. eauto.
Qed.

Lemma well_formed_filter (q : json -> bool) (l : list json) :
  well_formed l -> well_formed (List.filter q l).
Proof.
  intros [Hok Hnd]. split; [apply forallb_filter, Hok|apply NoDup_ids_filter, Hnd].
Qed.

(** With two decks or more and distinct ids, removing one id leaves a
    deck. *)
Lemma filter_leaves_a_deck (x : value) (l : list json) :
  NoDup (deck_ids l) -> (2 <= length l)%nat ->
  List.filter (fun d => negb (strict_eq (deck_id d) x)) l <> [].
Proof.
  destruct l as [|d1 [|d2 l]]; cbn; try lia. intros Hnd _.
  destruct (strict_eq (deck_id d1) x) eqn:E1; cbn; [|discriminate].
  destruct (strict_eq (deck_id d2) x) eqn:E2; cbn; [|discriminate].
  apply strict_eq_true in E1, E2. apply NoDup_cons in Hnd as [Hd1 _].
  destruct Hd1. rewrite E1, <- E2. left.
Qed.

Lemma well_formed_default : well_formed [default_deck].
Proof.
  split; [reflexivity|]. apply NoDup_cons. split; [|apply NoDup_nil_2].
  intros H. inversion H.
Qed.

Lemma is_deck_new_deck (now : Z) (name : string) : is_deck (new_deck now name) = true.
Proof. reflexivity. Qed.

Lemma is_card_new_card (now : Z) (iso q a : string) : is_card (new_card now iso q a) = true.
Proof. reflexivity. Qed.

Lemma well_formed_snoc (l : list json) (now : Z) (name : string) :
  well_formed l -> ~ In (J (JStr (pretty now))) (deck_ids l) ->
  well_formed (l ++ [new_deck now name]).
Proof.
  intros [Hok Hnd] Hfresh. split.
  - rewrite forallb_app, Hok. reflexivity.
  - unfold deck_ids. rewrite map_app. apply NoDup_app. split; [exact Hnd|]. split.
    + intros v Hv Hv'. apply list_elem_of_In in Hv, Hv'. cbn in Hv'.
      destruct Hv' as [<-|[]]. exact (Hfresh Hv).
    + cbn. apply NoDup_singleton.
Qed.

Lemma is_deck_spread_with (x : json) (cs : list json) :
  is_deck x = true -> forallb is_card cs = true ->
  is_deck (spread_with x "cards" (JArr cs)) = true.
Proof.
  intros H Hcs. destruct (is_deck_obj x H) as [fs ->].
  unfold spread_with. cbn in *.
  rewrite !lookup_set_field_ne by discriminate. rewrite lookup_set_field_eq, Hcs.
  apply andb_prop in H as [H _]. rewrite H. reflexivity.
Qed.

(** A map that keeps decks well formed and keeps their ids keeps the
    list well formed. *)
Lemma well_formed_map (g : json -> json) (l : list json) :
  (forall x, is_deck x = true -> is_deck (g x) = true) ->
  (forall x, deck_id (g x) = deck_id x) ->
  well_formed l -> well_formed (map g l).
Proof.
  intros Hg Hid [Hok Hnd]. split.
  - rewrite forallb_forall in *. intros y Hy. apply in_map_iff in Hy as (x & <- & Hx).
    apply Hg, Hok, Hx.
  - unfold deck_ids. rewrite map_map. erewrite map_ext; [exact Hnd|]. exact Hid.
Qed.

Lemma payload_ok_written (l : list json) (s : State) :
  well_formed l -> payload_ok (storage s) -> payload_ok (written l s).
Proof. intros Hl Hs. unfold written. destruct (storage_ok s); cbn; auto. Qed.

Lemma store_ok_loadData (s : State) : store_ok s -> store_ok (final (loadData s)).
Proof.
  intros (Hne & Hwf & Hp). rewrite loadData_run.
  destruct s as [f ds c a1 a2 q a n m i sa lo sv st ok]. cbn in *.
  destruct ok; [|split; auto].
  assert (Hreset : store_ok (final (setIsLoading false (final (resetToDefault
            (mkState f ds c a1 a2 q a n m i sa lo sv st true)))))).
  { rewrite resetToDefault_run. cbn. split; [discriminate|].
    split; [apply well_formed_default|]. unfold written. cbn. right.
    apply well_formed_default. }
  destruct st as [[| |v]|]; try (split; auto; fail).
  destruct v as [| | | |[|d l]|]; try exact Hreset.
  destruct Hp as [Hp|Hp]; [discriminate|].
  destruct (find_e _ _) as [v|e]; cbn.
  2:{ split; [discriminate|]. split; [exact Hp|]. right. exact Hp. }
  destruct (truthy v); cbn.
  2:{ split; [discriminate|]. split; [exact Hp|]. right. exact Hp. }
  destruct (member v "cards") as [[|[]]|]; cbn;
    (split; [discriminate|]; split; [exact Hp|]; right; exact Hp).
Qed.

Lemma store_ok_resetToDefault (s : State) :
  store_ok s -> store_ok (final (resetToDefault s)).
Proof.
  intros (Hne & Hwf & Hp). rewrite resetToDefault_run. cbn.
  split; [discriminate|]. split; [apply well_formed_default|].
  apply payload_ok_written; [apply well_formed_default|exact Hp].
Qed.

Lemma store_ok_createDeck (now : Z) (s : State) :
  store_ok s -> ~ In (J (JStr (pretty now))) (deck_ids (decks s)) ->
  store_ok (final (createDeck now s)).
Proof.
  intros (Hne & Hwf & Hp) Hfresh. rewrite createDeck_run. cbv zeta.
  destruct (negb _); [exact (conj Hne (conj Hwf Hp))|].
  rewrite some_same_name by apply Hwf.
  destruct (name_taken _ _); [exact (conj Hne (conj Hwf Hp))|]. cbn.
  pose proof (well_formed_snoc _ now (trim (newDeckName s)) Hwf Hfresh) as Hwf'.
  split; [|split; [exact Hwf'|]].
  - destruct (decks s); discriminate.
  - apply (payload_ok_written _ (final (setDecks _ s))); assumption.
Qed.

Lemma store_ok_deleteDeck (deckId : value) (choice : button) (s : State) :
  store_ok s -> store_ok (final (deleteDeck deckId choice s)).
Proof.
  intros (Hne & Hwf & Hp).
  destruct (Nat.leb_spec (length (decks s)) 1) as [Hlen|Hlen].
  { rewrite deleteDeck_last by exact Hlen. exact (conj Hne (conj Hwf Hp)). }
  destruct choice.
  - rewrite deleteDeck_cancel by (try apply Hwf; lia).
    destruct (List.find _ _); exact (conj Hne (conj Hwf Hp)).
  - rewrite deleteDeck_delete by (try apply Hwf; lia).
    destruct (List.find _ _); [|exact (conj Hne (conj Hwf Hp))]. cbv zeta.
    set (u := List.filter _ (decks s)).
    assert (Hu : u <> []) by (apply filter_leaves_a_deck; [apply Hwf|lia]).
    assert (Hwu : well_formed u) by apply well_formed_filter, Hwf.
    assert (Hpu : payload_ok (written u (final (setDecks u s)))).
    { apply (payload_ok_written _ (final (setDecks u s))); assumption. }
    destruct (strict_eq (currentDeck s) deckId); cbn.
    + destruct u as [|first u']; [contradiction|]. exact (conj Hu (conj Hwu Hpu)).
    + exact (conj Hu (conj Hwu Hpu)).
Qed.

Lemma switchDeck_keeps_store (deckId : value) (s : State) :
  decks (final (switchDeck deckId s)) = decks s /\
  storage (final (switchDeck deckId s)) = storage s.
Proof.
  destruct s as [f ds c a1 a2 q a n m i sa lo sv st ok].
  unfold switchDeck. run.
  destruct (find_e (has_id deckId) ds) as [v|e]; cbn; [|auto].
  destruct (truthy v); cbn; [|auto].
  destruct (member v "cards"); cbn; auto.
Qed.

Lemma store_ok_switchDeck (deckId : value) (s : State) :
  store_ok s -> store_ok (final (switchDeck deckId s)).
Proof.
  unfold store_ok. destruct (switchDeck_keeps_store deckId s) as [-> ->]. tauto.
Qed.

Lemma store_ok_saveCard (now : Z) (iso : string) (s : State) :
  store_ok s -> store_ok (final (saveCard now iso s)).
Proof.
  intros (Hne & Hwf & Hp). rewrite saveCard_run.
  destruct (negb _ || negb _); [exact (conj Hne (conj Hwf Hp))|]. cbv zeta.
  set (c := new_card now iso _ _).
  set (g := fun x => if strict_eq (deck_id x) (currentDeck s)
                     then spread_with x "cards" (JArr (deck_cards x ++ [c])) else x).
  assert (Hmap : map_e (with_card (currentDeck s) c) (decks s) = Normal (map g (decks s))).
  { apply map_e_pure. intros x Hx. apply with_card_deck, (decks_ok_elem _ _ (proj1 Hwf) Hx). }
  rewrite Hmap.
  assert (Hwg : well_formed (map g (decks s))).
  { apply well_formed_map; [| |exact Hwf].
    - intros x Hx. unfold g. destruct (strict_eq _ _); [|exact Hx].
      apply is_deck_spread_with; [exact Hx|].
      rewrite forallb_app, (proj2 (is_deck_cards x Hx)). reflexivity.
    - intros x. unfold g. destruct (strict_eq _ _); [apply deck_id_spread_with|reflexivity]. }
  assert (Hng : map g (decks s) <> []) by (destruct (decks s); [contradiction|discriminate]).
  assert (Hpg : payload_ok (written (map g (decks s)) (final (setDecks (map g (decks s)) s)))).
  { apply (payload_ok_written _ (final (setDecks _ s))); assumption. }
  destruct (spread (flashcards s)); exact (conj Hng (conj Hwg Hpg)).
Qed.

Lemma store_ok_deleteCard (cardId : value) (choice : button) (s : State) :
  store_ok s -> store_ok (final (deleteCard cardId choice s)).
Proof.
  intros (Hne & Hwf & Hp). destruct choice.
  { rewrite deleteCard_cancel. exact (conj Hne (conj Hwf Hp)). }
  rewrite deleteCard_run.
  set (g := fun x => if strict_eq (deck_id x) (currentDeck s)
                     then spread_with x "cards"
                            (JArr (List.filter (fun c => negb (strict_eq (prop c "id") cardId))
                                     (deck_cards x)))
                     else x).
  assert (Hmap : map_e (without_card (currentDeck s) cardId) (decks s)
                 = Normal (map g (decks s))).
  { apply map_e_pure. intros x Hx.
    apply without_card_deck, (decks_ok_elem _ _ (proj1 Hwf) Hx). }
  rewrite Hmap. cbv zeta.
  assert (Hwg : well_formed (map g (decks s))).
  { apply well_formed_map; [| |exact Hwf].
    - intros x Hx. unfold g. destruct (strict_eq _ _); [|exact Hx].
      apply is_deck_spread_with; [exact Hx|].
      rewrite forallb_forall. intros y Hy. apply filter_In in Hy as [Hy _].
      pose proof (proj2 (is_deck_cards x Hx)) as Hc. rewrite forallb_forall in Hc. auto.
    - intros x. unfold g. destruct (strict_eq _ _); [apply deck_id_spread_with|reflexivity]. }
  assert (Hng : map g (decks s) <> []) by (destruct (decks s); [contradiction|discriminate]).
  assert (Hpg : payload_ok (written (map g (decks s)) (final (setDecks (map g (decks s)) s)))).
  { apply (payload_ok_written _ (final (setDecks _ s))); assumption. }
  destruct (call_filter (flashcards s) _); exact (conj Hng (conj Hwg Hpg)).
Qed.

(** The study session reads the card list and writes its own variables. *)
Lemma study_keeps_store (s : State) :
  (decks (final (studyCards s)) = decks s /\
   storage (final (studyCards s)) = storage s) /\
  (decks (final (nextCard s)) = decks s /\
   storage (final (nextCard s)) = storage s).
Proof.
  destruct s as [f ds c a1 a2 q a n m i sa lo sv st ok].
  unfold studyCards, nextCard. run.
  destruct (member f "length") as [len|]; cbn; [|auto].
  destruct (strict_eq len (JNum 0)); cbn.
  all: destruct len as [|[]]; cbn; auto.
  all: destruct (_ <? _); cbn; auto.
Qed.

Lemma store_ok_handle (e : event) (s : State) :
  store_ok s -> fresh e s -> store_ok (final (handle e s)).
Proof.
  intros Hs Hf. destruct e; cbn [handle].
  - apply store_ok_loadData, Hs.
  - apply store_ok_resetToDefault, Hs.
  - apply store_ok_createDeck; assumption.
  - apply store_ok_deleteDeck, Hs.
  - apply store_ok_switchDeck, Hs.
  - apply store_ok_saveCard, Hs.
  - apply store_ok_deleteCard, Hs.
  - exact Hs.
  - exact Hs.
  - exact Hs.
  - exact Hs.
  - exact Hs.
  - unfold store_ok. destruct (proj1 (study_keeps_store s)) as [-> ->]. exact Hs.
  - exact Hs.
  - unfold store_ok. destruct (proj2 (study_keeps_store s)) as [-> ->]. exact Hs.
  - exact Hs.
  - exact Hs.
Qed.

Lemma store_ok_after (es : list event) (s : State) :
  store_ok s -> fresh_run es s -> store_ok (after es s).
Proof.
  revert s. induction es as [|e es IH]; intros s Hs Hf; [exact Hs|].
  destruct Hf as [Hf Hrest]. cbn [after]. apply IH; [|exact Hrest].
  apply store_ok_handle; assumption.
Qed.

Lemma store_ok_initial : store_ok (initial None true).
Proof.
  split; [discriminate|]. split; [apply well_formed_default|exact I].
Qed.

Lemma createDeck_count (now : Z) (s : State) :
  (length (decks s) <= length (decks (final (createDeck now s))))%nat.
Proof.
  rewrite createDeck_run. cbv zeta.
  destruct (negb _); [reflexivity|].
  destruct (some_e _ _) as [[|]|]; cbn; try reflexivity.
  rewrite length_app. lia.
Qed.

Lemma saveCard_count (now : Z) (iso : string) (s : State) :
  length (decks (final (saveCard now iso s))) = length (decks s).
Proof.
  rewrite saveCard_run. destruct (negb _ || negb _); [reflexivity|]. cbv zeta.
  destruct (map_e _ _) as [u|] eqn:Hu; [|reflexivity].
  apply map_e_length in Hu. destruct (spread _); exact Hu.
Qed.

Lemma deleteCard_count (cardId : value) (choice : button) (s : State) :
  length (decks (final (deleteCard cardId choice s))) = length (decks s).
Proof.
  destruct choice; [rewrite deleteCard_cancel; reflexivity|].
  rewrite deleteCard_run.
  destruct (map_e _ _) as [u|] eqn:Hu; [|reflexivity].
  apply map_e_length in Hu. cbv zeta. destruct (call_filter _ _); exact Hu.
Qed.

Lemma handle_count (e : event) (s : State) :
  replaces_decks e = false ->
  (length (decks s) <= length (decks (final (handle e s))))%nat.
Proof.
  destruct e; cbn [replaces_decks handle]; try discriminate; intros _.
  - apply createDeck_count.
  - rewrite (proj1 (switchDeck_keeps_store deckId s)). reflexivity.
  - rewrite saveCard_count. reflexivity.
  - rewrite deleteCard_count. reflexivity.
  - reflexivity.
  - reflexivity.
  - reflexivity.
  - reflexivity.
  - reflexivity.
  - rewrite (proj1 (proj1 (study_keeps_store s))). reflexivity.
  - reflexivity.
  - rewrite (proj1 (proj2 (study_keeps_store s))). reflexivity.
  - reflexivity.
  - reflexivity.
Qed.

(** C3. From a store with well-formed decks of distinct ids, and clock
    readings that are not already deck ids, every sequence of events
    leaves at least one deck: [deleteDeck] on a one-deck list raises
    'Cannot Delete' and changes nothing, and the events other than
    [deleteDeck] and the two that set the whole list ([loadData],
    [resetToDefault]) never shorten the list. *)
Theorem deck_list_never_empty (es : list event) (s : State) :
  store_ok s ->
  fresh_run es s ->
  let s' := after es s in
  (1 <= length (decks s'))%nat /\
  (forall deckId choice,
      length (decks s') = 1%nat ->
      deleteDeck deckId choice s' = mkRun (Normal tt) s' [CannotDelete]) /\
  (forall e,
      replaces_decks e = false ->
      (length (decks s') <= length (decks (final (handle e s'))))%nat).
Proof.
  intros Hs Hf s'.
  destruct (store_ok_after es s Hs Hf) as (Hne & _). fold s' in Hne.
  split; [|split].
  - destruct (decks s'); [contradiction|cbn; lia].
  - intros deckId choice Hlen. apply deleteDeck_last. lia.
  - intros e He. apply handle_count, He.
Qed.

Lemma deck_list_never_empty_witness :
  (1 <= length (decks (after
      (first_session ++ [EvDeleteDeck (JStr "1700000000000") Delete])
      (initial None true))))%nat.
Proof.
  refine (proj1 (deck_list_never_empty
            (first_session ++ [EvDeleteDeck (JStr "1700000000000") Delete])
            (initial None true) store_ok_initial _)).
  vm_compute. repeat split. intros [H|[]]. discriminate H.
Defined.

(** ** The card list follows the active deck *)

Lemma strict_eq_deck_id (d : json) :
  is_deck d = true -> strict_eq (deck_id d) (deck_id d) = true.
Proof.
  intros H. destruct (is_deck_id d H) as [x ->]. cbn. apply String.eqb_refl.
Qed.

Lemma find_in_ids (x : value) (l : list json) :
  forallb is_deck l = true -> In x (deck_ids l) ->
  exists d, List.find (fun d => strict_eq (deck_id d) x) l = Some d.
Proof.
  intros Hok Hin. apply in_map_iff in Hin as (d & <- & Hd).
  destruct (List.find _ l) as [d'|] eqn:E; [eauto|].
  pose proof (find_none _ _ E d Hd) as Hn. cbn in Hn.
  rewrite strict_eq_deck_id in Hn by exact (decks_ok_elem _ _ Hok Hd). discriminate.
Qed.








Lemma spread_array (l : list json) : spread (J (JArr l)) = Normal l.
Proof. reflexivity. Qed.







(** [switchDeck] with the id of a deck makes that deck active and shows
    its cards. *)
Lemma switchDeck_known_id (deckId : value) (s : State) (d : json) :
  forallb is_deck (decks s) = true ->
  List.find (fun x => strict_eq (deck_id x) deckId) (decks s) = Some d ->
  outcome (switchDeck deckId s) = Normal tt /\
  currentDeck (final (switchDeck deckId s)) = deckId /\
  flashcards (final (switchDeck deckId s)) = JArr (deck_cards d) /\
  active_deck (final (switchDeck deckId s)) = Some d.
Proof.
  intros Hok Hfind. rewrite switchDeck_run by exact Hok. rewrite Hfind.
  repeat split; try reflexivity. exact Hfind.
Qed.

(** C2, amended.  For well-formed decks [switchDeck] completes normally
    without an alert, always sets the active deck id to the id it is
    given and never touches the deck list or the storage.  When the id
    matches a deck, that deck becomes the active deck and its cards the
    card list.  When the id matches no deck, the card list is left as it
    was and only the active deck id is assigned, which then names no
    deck: the guard covers the card list alone.  The id of a deck of the
    list, which is what a deck tab passes, always matches a deck. *)
Theorem switchDeck_assigns_then_guards (deckId : value) (s : State) :
  forallb is_deck (decks s) = true ->
  let r := switchDeck deckId s in
  let found := List.find (fun x => strict_eq (deck_id x) deckId) (decks s) in
  outcome r = Normal tt /\
  shown r = [] /\
  currentDeck (final r) = deckId /\
  decks (final r) = decks s /\
  storage (final r) = storage s /\
  active_deck (final r) = found /\
  (forall d, found = Some d -> flashcards (final r) = JArr (deck_cards d)) /\
  (found = None ->
     flashcards (final r) = flashcards s /\
     final r = final (setCurrentDeck deckId s)) /\
  (forall d, In d (decks s) ->
     exists d', List.find (fun x => strict_eq (deck_id x) (deck_id d)) (decks s) = Some d').
Proof.
  intros Hok. cbv zeta. rewrite switchDeck_run by exact Hok.
  unfold active_deck.
  destruct (List.find (fun x => strict_eq (deck_id x) deckId) (decks s)) as [d|] eqn:Hfind;
    cbn [outcome shown final setFlashcards setCurrentDeck currentDeck decks storage
         flashcards].
  - rewrite Hfind. repeat split; try reflexivity.
    + intros d' [= <-]. reflexivity.
    + discriminate.
    + discriminate.
    + intros d0 Hd0. apply (find_in_ids _ _ Hok), in_map, Hd0.
  - rewrite Hfind. repeat split; try reflexivity.
    + intros d' Hd'. discriminate Hd'.
    + intros d0 Hd0. apply (find_in_ids _ _ Hok), in_map, Hd0.
Qed.

Lemma switchDeck_assigns_then_guards_witness :
  currentDeck (final (switchDeck (JStr "1700000050000")
                        (after example_run (initial None true))))
    = J (JStr "1700000050000") /\
  flashcards (final (switchDeck (JStr "1700000050000")
                       (after example_run (initial None true))))
    = JArr [].
Proof.
  destruct (switchDeck_assigns_then_guards (JStr "1700000050000")
              (after example_run (initial None true)) eq_refl)
    as (_ & _ & Hcur & _ & _ & _ & Hcards & _).
  split; [exact Hcur|].
  exact (Hcards (new_deck 1700000050000 "Math") eq_refl).
Defined.

(** Deleting the active deck makes the first remaining deck active and
    shows its cards. *)
Lemma deleteDeck_active_moves_to_first (s : State) (d : json) :
  store_ok s ->
  (2 <= length (decks s))%nat ->
  active_deck s = Some d ->
  let s' := final (deleteDeck (currentDeck s) Delete s) in
  exists first rest,
    decks s' = first :: rest /\
    decks s' = List.filter (fun x => negb (strict_eq (deck_id x) (currentDeck s))) (decks s) /\
    currentDeck s' = deck_id first /\
    flashcards s' = JArr (deck_cards first).
Proof.
  intros (Hne & Hwf & Hp) Hlen Hact s'. subst s'.
  rewrite deleteDeck_delete by (try apply Hwf; lia).
  unfold active_deck in Hact. rewrite Hact. cbv zeta.
  pose proof (find_some _ _ Hact) as [Hd Hdcur].
  assert (Hcur : strict_eq (currentDeck s) (currentDeck s) = true).
  { apply strict_eq_true in Hdcur. rewrite <- Hdcur.
    apply strict_eq_deck_id, (decks_ok_elem _ _ (proj1 Hwf) Hd). }
  rewrite Hcur.
  pose proof (filter_leaves_a_deck (currentDeck s) (decks s) (proj2 Hwf) Hlen) as Hu.
  destruct (List.filter _ (decks s)) as [|first rest]; [contradiction|].
  exists first, rest. cbn. auto.
Qed.

(** ** Runs that break the active deck *)

(** C1 at a failing input.  The first run of the application ends with
    the only deck "Math" active and stored.  Started again, the
    application loads that list and keeps the initial active deck id
    ['default'], which names no deck of the list.  A [switchDeck] with an
    id of no deck leaves the active deck id dangling as well. *)
Theorem loadData_leaves_active_deck_dangling :
  deck_ids (decks (after first_session (initial None true))) = [J (JStr "1700000000000")] /\
  currentDeck (after first_session (initial None true)) = J (JStr "1700000000000") /\
  storage (after first_session (initial None true))
    = Some (JsonText (JArr [new_deck 1700000000000 "Math"])) /\
  deck_ids (decks (final (loadData restarted))) = [J (JStr "1700000000000")] /\
  currentDeck (final (loadData restarted)) = J (JStr "default") /\
  active_deck (final (loadData restarted)) = None /\
  active_deck (final (switchDeck (JStr "nope") (initial None true))) = None.
Proof. vm_compute. repeat split; reflexivity. Qed.

(** C10 at a failing input.  After the restart the active deck id names
    no deck; a card saved then is put on the card list and in no deck,
    and what is stored does not hold it. *)
Theorem saveCard_after_reload_out_of_sync :
  let s := after (EvLoadData :: add_a_card) restarted in
  let card := new_card 1700000100000 "2023-11-14T22:15:00.000Z" "2+2?" "4" in
  flashcards s = JArr [card] /\
  active_deck s = None /\
  map deck_cards (decks s) = [[]] /\
  storage s = Some (JsonText (JArr (decks s))).
Proof. vm_compute. repeat split; reflexivity. Qed.

(** ** The example run of the specification *)

Lemma example_run_states :
  let s1 := after example_run (initial None true) in
  let s2 := final (switchDeck (JStr "1700000050000") s1) in
  flashcards s1 = JArr [new_card 1700000000000 "2023-11-14T22:13:20.000Z" "2+2?" "4"] /\
  length (decks s1) = 2%nat /\
  currentDeck s1 = J (JStr "default") /\
  currentDeck s2 = J (JStr "1700000050000") /\
  flashcards s2 = JArr [] /\
  storage s2 = Some (JsonText (JArr (decks s2))).
Proof. vm_compute. repeat split; reflexivity. Qed.

(** * Further properties of the handlers *)

(** ** Saving, loading and resetting *)

(** X1. [saveData] contains every failure: whatever it is given and
    whether or not the storage answers, it completes normally, leaves
    [isSaving] false and the decks, the card list and the active deck as
    they were; the storage is written exactly when the argument is an
    array and the storage answers, and otherwise the 'Save Error' alert
    is raised and the storage keeps what it held. *)
Theorem saveData_contains_failures (v : json) (s : State) :
  let r := saveData v s in
  let done := isArray v && storage_ok s in
  outcome r = Normal tt /\
  isSaving (final r) = false /\
  decks (final r) = decks s /\
  flashcards (final r) = flashcards s /\
  currentDeck (final r) = currentDeck s /\
  storage (final r) = (if done then Some (JsonText v) else storage s) /\
  shown r = (if done then [] else [SaveError]).
Proof.
  cbv zeta. destruct (isArray (J v)) eqn:Hv.
  - destruct v; try discriminate. rewrite saveData_run. unfold saved, written. cbn.
    destruct (storage_ok s); repeat split; reflexivity.
  - rewrite saveData_not_array by exact Hv. cbn. repeat split; reflexivity.
Qed.

(** X2. [loadData] always ends with [isLoading] false and never throws,
    and running it again changes nothing more: the state after two runs
    is the state after one, whatever the storage holds. *)
Theorem loadData_idempotent (s : State) :
  outcome (loadData s) = Normal tt /\
  isLoading (final (loadData s)) = false /\
  final (loadData (final (loadData s))) = final (loadData s).
Proof.
  rewrite (loadData_run s).
  destruct s as [f ds c a1 a2 q a n m i sa lo sv st ok].
  cbn [storage_ok storage currentDeck].
  destruct ok.
  2:{ cbn. rewrite loadData_run. cbn. auto. }
  destruct st as [[| |v]|].
  - cbn. rewrite loadData_run. cbn. auto.
  - cbn. rewrite loadData_run. cbn. auto.
  - assert (Hreset : forall s0 : State, storage_ok s0 = true ->
              let s1 := final (setIsLoading false (final (resetToDefault s0))) in
              isLoading s1 = false /\ final (loadData s1) = s1).
    { intros s0 H0. rewrite resetToDefault_run. cbn. split; [reflexivity|].
      rewrite loadData_run. unfold written. cbn. rewrite H0. cbn.
      destruct s0. cbn in *. subst. reflexivity. }
    destruct v as [| | | |[|d l]|];
      try (split; [reflexivity|];
           exact (Hreset (mkState f ds c a1 a2 q a n m i sa lo sv _ true) eq_refl)).
    cbv zeta.
    destruct (find_e (has_id c) (d :: l)) as [v|e] eqn:Hfind.
    2:{ cbn. rewrite loadData_run. cbn. rewrite Hfind. auto. }
    destruct (truthy v) eqn:Htr.
    2:{ cbn. rewrite loadData_run. cbn. rewrite Hfind, Htr. auto. }
    destruct (member v "cards") as [cards|e] eqn:Hc.
    2:{ cbn. rewrite loadData_run. cbn. rewrite Hfind, Htr, Hc. auto. }
    destruct cards as [|[]]; cbn; rewrite loadData_run; cbn;
      rewrite Hfind, Htr, Hc; auto.
  - cbn. rewrite loadData_run. cbn. auto.
Qed.

(** X3. [resetToDefault] repairs any state: with the storage answering
    it leaves the single default deck, active and shown, and stores it,
    so that the invariant of the store holds, a second reset changes
    nothing, and the application started again loads the same state. *)
Theorem resetToDefault_repairs (s : State) :
  storage_ok s = true ->
  let s1 := final (resetToDefault s) in
  outcome (resetToDefault s) = Normal tt /\
  default_state s1 /\
  store_ok s1 /\
  synced s1 /\
  storage s1 = Some (JsonText (JArr [default_deck])) /\
  final (resetToDefault s1) = s1 /\
  default_state (final (loadData (initial (storage s1) true))) /\
  synced (final (loadData (initial (storage s1) true))).
Proof.
  intros Hok. cbv zeta. rewrite !resetToDefault_run. unfold saved, written. cbn.
  rewrite Hok. cbn.
  split; [reflexivity|]. split; [repeat split; reflexivity|].
  split; [split; [discriminate|split; [apply well_formed_default|right; apply well_formed_default]]|].
  split; [exists default_deck; split; reflexivity|].
  split; [reflexivity|]. split; [reflexivity|].
  split; [repeat split; reflexivity|]. exists default_deck. split; reflexivity.
Qed.

Lemma resetToDefault_repairs_witness :
  store_ok (final (resetToDefault
    (final (loadData (initial (Some (JsonText (JArr [JNum 1; JNull]))) true))))).
Proof.
  exact (proj1 (proj2 (proj2 (resetToDefault_repairs
    (final (loadData (initial (Some (JsonText (JArr [JNum 1; JNull]))) true))) eq_refl)))).
Defined.

(** ** Deleting a deck *)

Lemma deleteDeck_general (deckId : value) (choice : button) (s : State) :
  deleteDeck deckId choice s =
    if (length (decks s) <=? 1)%nat then mkRun (Normal tt) s [CannotDelete]
    else
      match find_e (has_id deckId) (decks s) with
      | Thrown e => mkRun (Thrown e) s []
      | Normal v =>
          match member v "name" with
          | Thrown e => mkRun (Thrown e) s []
          | Normal name =>
              match choice with
              | Cancel => mkRun (Normal tt) s [ConfirmDeleteDeck name]
              | Delete =>
                  match filter_e (lacks_id deckId) (decks s) with
                  | Thrown e => mkRun (Thrown e) s [ConfirmDeleteDeck name]
                  | Normal u =>
                      let s' := saved u (final (setDecks u s)) in
                      also (ConfirmDeleteDeck name
                              :: if storage_ok s then [] else [SaveError])
                        (if strict_eq (currentDeck s) deckId then
                           match member (index u 0) "id" with
                           | Thrown e => mkRun (Thrown e) s' []
                           | Normal newCurrentDeck =>
                               match member (index u 0) "cards" with
                               | Thrown e =>
                                   mkRun (Thrown e)
                                     (final (setCurrentDeck newCurrentDeck s')) []
                               | Normal cards =>
                                   mkRun (Normal tt)
                                     (final (setFlashcards (or_empty cards)
                                        (final (setCurrentDeck newCurrentDeck s')))) []
                               end
                           end
                         else mkRun (Normal tt) s' [])
                  end
              end
          end
      end.
Proof.
  destruct s as [f ds c a1 a2 q a n m i sa lo sv st ok].
  unfold deleteDeck. run.
  destruct (length ds <=? 1)%nat; [reflexivity|].
  destruct (find_e _ ds) as [v|e]; cbn; [|reflexivity].
  destruct (member v "name") as [name|e]; cbn; [|reflexivity].
  destruct choice; [reflexivity|].
  destruct (filter_e _ ds) as [u|e]; cbn; [|reflexivity].
  rewrite saveData_run. cbn.
  destruct (strict_eq c deckId); cbn; [|destruct ok; reflexivity].
  destruct (member (index u 0) "id") as [nid|e]; cbn; [|destruct ok; reflexivity].
  destruct (member (index u 0) "cards") as [cards|e]; cbn; destruct ok; reflexivity.
Qed.

(** X4. Cancel in either confirmation alert changes nothing: whatever
    the state and the id, [deleteDeck] and [deleteCard] answered with
    Cancel leave every state variable and the storage as they were. *)
Theorem cancel_changes_nothing (x : value) (s : State) :
  final (deleteDeck x Cancel s) = s /\
  final (deleteCard x Cancel s) = s /\
  outcome (deleteCard x Cancel s) = Normal tt.
Proof.
  rewrite deleteDeck_general, deleteCard_cancel. split; [|auto].
  destruct (length (decks s) <=? 1)%nat; [reflexivity|].
  destruct (find_e _ _) as [v|e]; [|reflexivity].
  destruct (member v "name"); reflexivity.
Qed.

Lemma filter_removes_one (x : value) (l : list json) (d : json) :
  NoDup (deck_ids l) -> In d l -> strict_eq (deck_id d) x = true ->
  S (length (List.filter (fun y => negb (strict_eq (deck_id y) x)) l)) = length l.
Proof.
  induction l as [|y l IH]; cbn; [contradiction|].
  intros Hnd Hin Hd. apply NoDup_cons in Hnd as [Hy Hnd].
  destruct Hin as [->|Hin].
  - rewrite Hd. cbn. f_equal.
    assert (Hall : forallb (fun y => negb (strict_eq (deck_id y) x)) l = true).
    { rewrite forallb_forall. intros z Hz.
      destruct (strict_eq (deck_id z) x) eqn:E; [|reflexivity].
      apply strict_eq_true in E, Hd. destruct Hy. rewrite Hd, <- E.
      apply list_elem_of_In, in_map, Hz. }
    clear -Hall. induction l as [|z l IH]; cbn in *; [reflexivity|].
    apply andb_prop in Hall as [Hz Hl]. rewrite Hz. cbn. f_equal. apply IH, Hl.
  - destruct (strict_eq (deck_id y) x) eqn:E; cbn.
    + apply strict_eq_true in E, Hd. destruct Hy. rewrite E, <- Hd.
      apply list_elem_of_In, in_map, Hin.
    + f_equal. apply IH; assumption.
Qed.

(** X5. A confirmed [deleteDeck] of a deck of the list, with well-formed
    decks of distinct ids and two decks or more, removes that deck and
    no other: the list is the old one without it, in the old order and
    one shorter, the id is gone, every other deck is still there, and the
    new list is what [saveData] is given.  When the deck was not the
    active one, the active deck id and the card list stay. *)
Theorem deleteDeck_removes_that_deck (deckId : value) (s : State) (d : json) :
  well_formed (decks s) ->
  (2 <= length (decks s))%nat ->
  In d (decks s) ->
  deck_id d = deckId ->
  let r := deleteDeck deckId Delete s in
  outcome r = Normal tt /\
  decks (final r) = List.filter (fun y => negb (strict_eq (deck_id y) deckId)) (decks s) /\
  S (length (decks (final r))) = length (decks s) /\
  ~ In deckId (deck_ids (decks (final r))) /\
  (forall y, In y (decks s) -> y <> d -> In y (decks (final r))) /\
  storage (final r) = written (decks (final r)) s /\
  (strict_eq (currentDeck s) deckId = false ->
     currentDeck (final r) = currentDeck s /\ flashcards (final r) = flashcards s).
Proof.
  intros [Hok Hnd] Hlen Hd Hid r. subst r.
  assert (Hdeck : is_deck d = true) by exact (decks_ok_elem _ _ Hok Hd).
  assert (Hself : strict_eq (deck_id d) deckId = true).
  { rewrite <- Hid. apply strict_eq_deck_id, Hdeck. }
  rewrite deleteDeck_delete by assumption.
  destruct (find_in_ids deckId (decks s) Hok) as [d0 Hfind].
  { rewrite <- Hid. apply in_map, Hd. }
  rewrite Hfind. cbv zeta.
  pose proof (filter_leaves_a_deck deckId (decks s) Hnd Hlen) as Hu.
  set (u := List.filter _ (decks s)) in *.
  assert (Hfacts : S (length u) = length (decks s) /\
                   ~ In deckId (deck_ids u) /\
                   (forall y, In y (decks s) -> y <> d -> In y u)).
  { split; [exact (filter_removes_one deckId (decks s) d Hnd Hd Hself)|]. split.
    - intros Hin. apply in_map_iff in Hin as (y & Hy & Hin).
      apply filter_In in Hin as [Hin Hne].
      rewrite Hy, <- Hid, strict_eq_deck_id in Hne by exact Hdeck. discriminate.
    - intros y Hy Hyd. apply filter_In. split; [exact Hy|].
      destruct (strict_eq (deck_id y) deckId) eqn:E; [|reflexivity].
      destruct Hyd. apply (deck_by_id (decks s)); auto.
      apply strict_eq_true in E. congruence. }
  destruct Hfacts as (H1 & H2 & H3).
  destruct (strict_eq (currentDeck s) deckId).
  - destruct u as [|first rest]; [contradiction|]. cbn.
    repeat split; auto; discriminate.
  - cbn. repeat split; auto.
Qed.

Lemma deleteDeck_removes_that_deck_witness :
  deck_ids (decks (final (deleteDeck (JStr "default") Delete
     (final (createDeck 1700000000000 naming_a_deck)))))
  = [J (JStr "1700000000000")].
Proof.
  pose proof (deleteDeck_removes_that_deck (JStr "default")
                (final (createDeck 1700000000000 naming_a_deck)) default_deck) as H.
  destruct H as (_ & Hd & _).
  - refine (well_formed_snoc [default_deck] 1700000000000 "Math" well_formed_default _).
    vm_compute. intros [Hin|[]]. discriminate Hin.
  - vm_compute. lia.
  - vm_compute. left. reflexivity.
  - reflexivity.
  - rewrite Hd. reflexivity.
Defined.

(** X6. [deleteDeck] of an id that no deck has, on two well-formed decks
    or more, throws a TypeError when it reads the name of the deck it did
    not find: no alert is raised and nothing is changed. *)
Theorem deleteDeck_unknown_id_throws (deckId : value) (choice : button) (s : State) :
  forallb is_deck (decks s) = true ->
  (2 <= length (decks s))%nat ->
  ~ In deckId (deck_ids (decks s)) ->
  deleteDeck deckId choice s = mkRun (Thrown TypeError) s [].
Proof.
  intros Hok Hlen Hnot.
  assert (Hfind : List.find (fun d => strict_eq (deck_id d) deckId) (decks s) = None).
  { destruct (List.find _ _) as [d|] eqn:E; [|reflexivity].
    apply find_some in E as [Hd E]. apply strict_eq_true in E.
    destruct Hnot. rewrite <- E. apply in_map, Hd. }
  destruct choice.
  - rewrite deleteDeck_cancel, Hfind by assumption. reflexivity.
  - rewrite deleteDeck_delete, Hfind by assumption. reflexivity.
Qed.

Lemma deleteDeck_unknown_id_throws_witness :
  outcome (deleteDeck (JStr "nope") Delete
             (final (createDeck 1700000000000 naming_a_deck)))
  = Thrown TypeError.
Proof.
  rewrite (deleteDeck_unknown_id_throws (JStr "nope") Delete
             (final (createDeck 1700000000000 naming_a_deck))).
  - reflexivity.
  - reflexivity.
  - vm_compute. lia.
  - vm_compute. intros [H|[H|[]]]; discriminate.
Defined.

(** ** Making and undoing *)

Lemma filter_keeps_all (x : value) (l : list json) :
  ~ In x (deck_ids l) ->
  List.filter (fun y => negb (strict_eq (deck_id y) x)) l = l.
Proof.
  induction l as [|y l IH]; cbn; [reflexivity|]. intros Hnot.
  destruct (strict_eq (deck_id y) x) eqn:E; cbn.
  - apply strict_eq_true in E. destruct Hnot. left. exact E.
  - rewrite IH; [reflexivity|]. intros H. apply Hnot. right. exact H.
Qed.

Lemma strict_eq_false_ne (a b : value) : a <> b -> strict_eq a b = false.
Proof.
  intros H. destruct (strict_eq a b) eqn:E; [|reflexivity].
  destruct H. apply strict_eq_true, E.
Qed.

(** X7. A deck created and then deleted leaves the store as it was:
    with well-formed decks of distinct ids, an active deck of the list, a
    name that passes the checks and a clock reading that is no deck id,
    [createDeck] followed by a confirmed [deleteDeck] of the new id
    gives back the old deck list, active deck id and card list, and the
    old list is what is stored last. *)
Theorem createDeck_then_deleteDeck (now : Z) (s : State) :
  well_formed (decks s) ->
  In (currentDeck s) (deck_ids (decks s)) ->
  trim (newDeckName s) <> "" ->
  name_taken (trim (newDeckName s)) (decks s) = false ->
  ~ In (J (JStr (pretty now))) (deck_ids (decks s)) ->
  let s1 := final (createDeck now s) in
  let s2 := final (deleteDeck (JStr (pretty now)) Delete s1) in
  length (decks s1) = S (length (decks s)) /\
  outcome (deleteDeck (JStr (pretty now)) Delete s1) = Normal tt /\
  decks s2 = decks s /\
  currentDeck s2 = currentDeck s /\
  flashcards s2 = flashcards s /\
  storage s2 = written (decks s) s.
Proof.
  intros Hwf Hcur Hname Htaken Hfresh. cbv zeta.
  assert (Hne : decks s <> []).
  { destruct (decks s); [destruct Hcur|discriminate]. }
  rewrite createDeck_run. cbv zeta.
  rewrite (trim_nonempty _ Hname), some_same_name, Htaken by apply Hwf.
  set (nd := new_deck now (trim (newDeckName s))).
  cbn [final outcome]. set (s1 := final (setShowDeckModal false _)).
  assert (Hd1 : decks s1 = decks s ++ [nd]) by reflexivity.
  assert (Hwf1 : well_formed (decks s1)).
  { rewrite Hd1. apply well_formed_snoc; assumption. }
  assert (Hlen : (2 <= length (decks s1))%nat).
  { rewrite Hd1, length_app. cbn. destruct (decks s); [contradiction|cbn; lia]. }
  split; [rewrite Hd1, length_app; cbn; lia|].
  rewrite deleteDeck_delete by (try apply Hwf1; exact Hlen).
  destruct (find_in_ids (JStr (pretty now)) (decks s1) (proj1 Hwf1)) as [d0 Hfind].
  { rewrite Hd1. unfold deck_ids. rewrite map_app. apply in_or_app. right. left. reflexivity. }
  rewrite Hfind. cbv zeta.
  assert (Hfilter : List.filter (fun y => negb (strict_eq (deck_id y) (JStr (pretty now))))
                      (decks s1) = decks s).
  { rewrite Hd1, List.filter_app, filter_keeps_all by exact Hfresh. cbn.
    rewrite String.eqb_refl. cbn. apply app_nil_r. }
  rewrite Hfilter.
  assert (Hc : strict_eq (currentDeck s1) (JStr (pretty now)) = false).
  { apply strict_eq_false_ne. intros E. apply Hfresh. rewrite <- E. exact Hcur. }
  rewrite Hc. cbn [final outcome also].
  split; [reflexivity|]. split; [reflexivity|]. split; [reflexivity|].
  split; [reflexivity|].
  clear Hd1 Hwf1 Hlen Hfind Hfilter Hc. subst s1.
  unfold saved, written, setDecks, setShowDeckModal, setNewDeckName.
  cbn [storage storage_ok final].
  destruct (storage_ok s); reflexivity.
Qed.

Lemma createDeck_then_deleteDeck_witness :
  decks (final (deleteDeck (JStr (pretty 1700000000000)) Delete
                  (final (createDeck 1700000000000 naming_a_deck))))
  = [default_deck].
Proof.
  refine (proj1 (proj2 (proj2 (createDeck_then_deleteDeck 1700000000000 naming_a_deck
                                 well_formed_default _ _ _ _)))).
  - left. reflexivity.
  - discriminate.
  - reflexivity.
  - vm_compute. intros [H|[]]. discriminate H.
Defined.

Lemma set_field_over (k : string) (v v' : json) (fs : list (string * json)) :
  set_field k v' (set_field k v fs) = set_field k v' fs.
Proof.
  induction fs as [|[k0 v0] fs IH]; cbn.
  - rewrite String.eqb_refl. reflexivity.
  - destruct (String.eqb k0 k) eqn:E; cbn.
    + rewrite String.eqb_refl. reflexivity.
    + rewrite E, IH. reflexivity.
Qed.

Lemma spread_with_over (j v v' : json) :
  spread_with (spread_with j "cards" v) "cards" v' = spread_with j "cards" v'.
Proof. unfold spread_with. cbn [own_props]. rewrite set_field_over. reflexivity. Qed.

Lemma filter_new_card (now : Z) (iso q a : string) (cs : list json) :
  card_in (JNum now) cs = false ->
  List.filter (fun c => negb (strict_eq (prop c "id") (JNum now)))
    (cs ++ [new_card now iso q a]) = cs.
Proof.
  intros H. rewrite List.filter_app, filter_absent by exact H. cbn.
  rewrite Z.eqb_refl. cbn. apply app_nil_r.
Qed.

(** X8. A card saved and then deleted leaves the decks and the card list
    as they were: with well-formed decks of distinct ids, the card list
    in step with the active deck, both fields filled and a clock reading
    that is the id of no card of the active deck, [saveCard] followed by
    a confirmed [deleteCard] of the new card's id gives back the old
    deck list and the old card list. *)
Theorem saveCard_then_deleteCard (now : Z) (iso : string) (s : State) (d : json) :
  well_formed (decks s) ->
  active_deck s = Some d ->
  flashcards s = JArr (deck_cards d) ->
  trim (question s) <> "" ->
  trim (answer s) <> "" ->
  card_id_free now (deck_cards d) ->
  let s1 := final (saveCard now iso s) in
  let r2 := deleteCard (JNum now) Delete s1 in
  outcome r2 = Normal tt /\
  decks (final r2) = decks s /\
  flashcards (final r2) = flashcards s /\
  currentDeck (final r2) = currentDeck s /\
  storage (final r2) = written (decks s) s.
Proof.
  intros [Hok Hnd] Hact Hf Hq Ha Hfree. cbv zeta.
  pose proof (find_some _ _ Hact) as [Hd Hdcur].
  pose proof (decks_ok_elem _ _ Hok Hd) as Hdeck.
  rewrite saveCard_run. rewrite (trim_nonempty _ Hq), (trim_nonempty _ Ha). cbn [orb].
  cbv zeta. set (c := new_card now iso _ _).
  set (g := fun x => if strict_eq (deck_id x) (currentDeck s)
                     then spread_with x "cards" (JArr (deck_cards x ++ [c])) else x).
  assert (Hmap : map_e (with_card (currentDeck s) c) (decks s) = Normal (map g (decks s))).
  { apply map_e_pure. intros x Hx. apply with_card_deck, (decks_ok_elem _ _ Hok Hx). }
  rewrite Hmap, Hf, spread_array. cbn [also final].
  set (s1 := final (setFlashcards _ _)).
  assert (Hd1 : decks s1 = map g (decks s)) by reflexivity.
  assert (Hf1 : flashcards s1 = JArr (deck_cards d ++ [c])) by reflexivity.
  assert (Hc1 : currentDeck s1 = currentDeck s) by reflexivity.
  assert (Hs1 : storage_ok s1 = storage_ok s).
  { subst s1. unfold saved, setDecks, setFlashcards, setShowAddModal, setAnswer, setQuestion.
    reflexivity. }
  assert (Hst1 : storage s1 = written (map g (decks s)) s).
  { subst s1. unfold saved, setDecks, setFlashcards, setShowAddModal, setAnswer, setQuestion.
    reflexivity. }
  rewrite deleteCard_run, Hd1, Hf1, Hc1, Hs1.
  set (keep := fun c0 => negb (strict_eq (prop c0 "id") (JNum now))).
  assert (Hback : map_e (without_card (currentDeck s) (JNum now)) (map g (decks s))
                  = Normal (decks s)).
  {
    assert (Hgoal : forall l, (forall x, In x l -> In x (decks s)) ->
              map_e (without_card (currentDeck s) (JNum now)) (map g l) = Normal l).
    { induction l as [|x l IH]; intros Hin; [reflexivity|].
      cbn [map]. rewrite map_e_cons, IH by (intros y Hy; apply Hin; right; exact Hy).
      assert (Hx : In x (decks s)) by (apply Hin; left; reflexivity).
      pose proof (decks_ok_elem _ _ Hok Hx) as Hxd.
      unfold g. destruct (strict_eq (deck_id x) (currentDeck s)) eqn:E.
      - assert (x = d) as ->.
        { apply (deck_by_id (decks s)); auto.
          apply strict_eq_true in E, Hdcur. congruence. }
        rewrite without_card_deck.
        + rewrite deck_id_spread_with, E, deck_cards_spread_with.
          unfold c. rewrite filter_new_card by exact Hfree.
          rewrite spread_with_over, spread_with_same_cards by exact Hdeck. reflexivity.
        + apply is_deck_spread_with; [exact Hdeck|].
          rewrite forallb_app, (proj2 (is_deck_cards d Hdeck)). reflexivity.
      - rewrite without_card_deck, E by exact Hxd. reflexivity. }
    apply Hgoal. auto. }
  rewrite Hback. cbv zeta.
  rewrite filter_cards.
  2:{ rewrite forallb_app, (proj2 (is_deck_cards d Hdeck)). reflexivity. }
  unfold c. rewrite filter_new_card by exact Hfree.
  cbn [also final outcome].
  split; [reflexivity|]. split; [reflexivity|].
  split; [reflexivity|].
  split; [exact Hc1|].
  unfold saved, setDecks, setFlashcards. cbn [storage final storage_ok].
  fold (storage_ok s1) (storage s1). rewrite Hs1, Hst1.
  unfold written. destruct (storage_ok s); reflexivity.
Qed.

Lemma saveCard_then_deleteCard_witness :
  decks (final (deleteCard (JNum 1700000100000) Delete
     (final (saveCard 1700000100000 "2023-11-14T22:15:00.000Z" typing_a_card))))
  = [default_deck].
Proof.
  refine (proj1 (proj2 (saveCard_then_deleteCard 1700000100000 "2023-11-14T22:15:00.000Z"
                          typing_a_card default_deck well_formed_default _ _ _ _ _))).
  - reflexivity.
  - reflexivity.
  - discriminate.
  - discriminate.
  - reflexivity.
Defined.

(** Reduction of the state variables of a run, leaving the decks and the
    cards as they are written. *)
Ltac fields :=
  cbn [final outcome shown also app
       flashcards decks currentDeck showAddModal showDeckModal question answer
       newDeckName studyMode currentCardIndex showAnswer isLoading isSaving
       storage storage_ok
       setDecks setFlashcards setCurrentDeck setShowAddModal setShowDeckModal
       setQuestion setAnswer setNewDeckName setStudyMode setCurrentCardIndex
       setShowAnswer setIsLoading setIsSaving setStorageOk saved written].

Lemma with_card_decks (now : Z) (iso : string) (s : State) :
  forallb is_deck (decks s) = true ->
  let c := new_card now iso (trim (question s)) (trim (answer s)) in
  map_e (with_card (currentDeck s) c) (decks s) =
    Normal (map (fun x => if strict_eq (deck_id x) (currentDeck s)
                          then spread_with x "cards" (JArr (deck_cards x ++ [c]))
                          else x) (decks s)).
Proof.
  intros Hok c. apply map_e_pure. intros x Hx.
  apply with_card_deck, (decks_ok_elem _ _ Hok Hx).
Qed.

(** X9. A write the storage refuses is reported and not rolled back: with
    the backend failing, [createDeck] of an accepted name still appends
    the deck in memory, clears the form and raises 'Save Error' followed
    by 'Success!', and [saveCard] with both fields filled still adds the
    card in memory and raises 'Save Error' followed by 'Success!'; the
    storage keeps what it held. *)
Theorem failed_write_is_not_rolled_back (now : Z) (iso : string) (s : State) :
  forallb is_deck (decks s) = true ->
  storage_ok s = false ->
  (trim (newDeckName s) <> "" ->
   name_taken (trim (newDeckName s)) (decks s) = false ->
   let r := createDeck now s in
   outcome r = Normal tt /\
   shown r = [SaveError; DeckCreated] /\
   decks (final r) = decks s ++ [new_deck now (trim (newDeckName s))] /\
   storage (final r) = storage s /\
   newDeckName (final r) = "" /\
   showDeckModal (final r) = false) /\
  (trim (question s) <> "" ->
   trim (answer s) <> "" ->
   forall cards, flashcards s = JArr cards ->
   let r := saveCard now iso s in
   let c := new_card now iso (trim (question s)) (trim (answer s)) in
   outcome r = Normal tt /\
   shown r = [SaveError; CardAdded] /\
   flashcards (final r) = JArr (cards ++ [c]) /\
   length (decks (final r)) = length (decks s) /\
   storage (final r) = storage s /\
   showAddModal (final r) = false).
Proof.
  intros Hok Hdown. split.
  - intros Hname Htaken. cbv zeta. rewrite createDeck_run. cbv zeta.
    rewrite (trim_nonempty _ Hname), some_same_name, Htaken by exact Hok.
    fields. rewrite Hdown. repeat split; reflexivity.
  - intros Hq Ha cards Hf. cbv zeta. rewrite saveCard_run.
    rewrite (trim_nonempty _ Hq), (trim_nonempty _ Ha). cbn [orb]. cbv zeta.
    rewrite with_card_decks by exact Hok. rewrite Hf, spread_array.
    fields. rewrite Hdown, length_map. repeat split; reflexivity.
Qed.

Lemma failed_write_is_not_rolled_back_witness :
  shown (createDeck 1700000000000 (final (handle (EvStorage false) naming_a_deck)))
    = [SaveError; DeckCreated] /\
  storage (final (createDeck 1700000000000 (final (handle (EvStorage false) naming_a_deck))))
    = None.
Proof.
  pose proof (failed_write_is_not_rolled_back 1700000000000 "2023-11-14T22:13:20.000Z"
                (final (handle (EvStorage false) naming_a_deck)) eq_refl eq_refl) as [H _].
  destruct H as (_ & Hshown & _ & Hst & _).
  - discriminate.
  - reflexivity.
  - split; [exact Hshown|exact Hst].
Defined.

(** X10. A submit started after a submit has run to its end is turned
    down: a [createDeck] that made a deck leaves, when it has completed,
    the name field empty and the deck modal closed, and a [createDeck]
    started from that state raises 'Please enter a deck name' and changes
    nothing; a [saveCard] that took the card leaves, when it has
    completed, both fields empty and the card modal closed, and a
    [saveCard] started from that state raises 'Please fill in both
    question and answer' and changes nothing.  The fields are emptied
    after the write is awaited: a press made while the first handler is
    still waiting is not a run of this model, where a handler runs to its
    end before the next one starts, and nothing is said of it. *)
Theorem submit_after_finished_submit_is_rejected
    (now now' : Z) (iso iso' : string) (s : State) :
  forallb is_deck (decks s) = true ->
  (trim (newDeckName s) <> "" ->
   name_taken (trim (newDeckName s)) (decks s) = false ->
   let s1 := final (createDeck now s) in
   length (decks s1) = S (length (decks s)) /\
   newDeckName s1 = "" /\ showDeckModal s1 = false /\
   createDeck now' s1 = mkRun (Normal tt) s1 [EnterDeckName]) /\
  (trim (question s) <> "" ->
   trim (answer s) <> "" ->
   let s1 := final (saveCard now iso s) in
   question s1 = "" /\ answer s1 = "" /\ showAddModal s1 = false /\
   saveCard now' iso' s1 = mkRun (Normal tt) s1 [FillBothFields]).
Proof.
  intros Hok. split.
  - intros Hname Htaken. cbv zeta. rewrite (createDeck_run now s). cbv zeta.
    rewrite (trim_nonempty _ Hname), some_same_name, Htaken by exact Hok.
    cbn [final]. set (s1 := final (setShowDeckModal false _)).
    split; [subst s1; fields; rewrite length_app; cbn; lia|].
    split; [reflexivity|]. split; [reflexivity|].
    rewrite createDeck_run. reflexivity.
  - intros Hq Ha. cbv zeta. rewrite (saveCard_run now iso s).
    rewrite (trim_nonempty _ Hq), (trim_nonempty _ Ha). cbn [orb]. cbv zeta.
    rewrite with_card_decks by exact Hok.
    destruct (spread (flashcards s)) as [prev|e]; cbn [also final].
    + set (s1 := final (setFlashcards _ _)).
      split; [reflexivity|]. split; [reflexivity|]. split; [reflexivity|].
      rewrite saveCard_run. reflexivity.
    + set (s1 := final (setShowAddModal false _)).
      split; [reflexivity|]. split; [reflexivity|]. split; [reflexivity|].
      rewrite saveCard_run. reflexivity.
Qed.

Lemma submit_after_finished_submit_is_rejected_witness :
  shown (createDeck 1700000000001 (final (createDeck 1700000000000 naming_a_deck)))
    = [EnterDeckName] /\
  shown (saveCard 1700000100001 "t" (final (saveCard 1700000100000 "t" typing_a_card)))
    = [FillBothFields].
Proof.
  destruct (submit_after_finished_submit_is_rejected 1700000000000 1700000000001 "t" "t"
              naming_a_deck eq_refl) as [H _].
  destruct (submit_after_finished_submit_is_rejected 1700000100000 1700000100001 "t" "t"
              typing_a_card eq_refl) as [_ H'].
  destruct H as (_ & _ & _ & ->); [discriminate|reflexivity|].
  destruct H' as (_ & _ & _ & ->); [discriminate|discriminate|].
  split; reflexivity.
Defined.

(** X11. Cancel throws the draft away: the Cancel button of the deck
    modal closes it and empties the name field, the Cancel button of the
    card modal closes it and empties the question and the answer; each
    leaves the other form, the decks, the card list, the active deck and
    the storage as they were, so that a submit right after it is turned
    down by the validation. *)
Theorem cancel_discards_the_draft (now : Z) (iso : string) (s : State) :
  let s1 := final (cancelCreateDeck s) in
  let s2 := final (cancelAddCard s) in
  (showDeckModal s1 = false /\ newDeckName s1 = "" /\
   showAddModal s1 = showAddModal s /\ question s1 = question s /\ answer s1 = answer s /\
   decks s1 = decks s /\ flashcards s1 = flashcards s /\
   currentDeck s1 = currentDeck s /\ storage s1 = storage s /\
   createDeck now s1 = mkRun (Normal tt) s1 [EnterDeckName]) /\
  (showAddModal s2 = false /\ question s2 = "" /\ answer s2 = "" /\
   showDeckModal s2 = showDeckModal s /\ newDeckName s2 = newDeckName s /\
   decks s2 = decks s /\ flashcards s2 = flashcards s /\
   currentDeck s2 = currentDeck s /\ storage s2 = storage s /\
   saveCard now iso s2 = mkRun (Normal tt) s2 [FillBothFields]).
Proof.
  destruct s as [f ds c a1 a2 q a n m i sa lo sv st ok]. cbv zeta.
  split.
  - rewrite createDeck_run. repeat split; reflexivity.
  - rewrite saveCard_run. repeat split; reflexivity.
Qed.

(** ** Switching and the study screen *)

(** X12. Switching decks is undone by switching back: from a state whose
    card list is that of the active deck, [switchDeck] of any id, known
    or not, followed by [switchDeck] of the old active id gives back the
    very state it started from; no [switchDeck] touches the decks or the
    storage. *)
Theorem switchDeck_back_restores (deckId : value) (s : State) :
  forallb is_deck (decks s) = true ->
  synced s ->
  let s1 := final (switchDeck deckId s) in
  decks s1 = decks s /\
  storage s1 = storage s /\
  currentDeck s1 = deckId /\
  final (switchDeck (currentDeck s) s1) = s.
Proof.
  intros Hok (d & Hact & Hf). cbv zeta.
  destruct (switchDeck_keeps_store deckId s) as [Hd Hst].
  split; [exact Hd|]. split; [exact Hst|].
  split; [apply switchDeck_sets_id|].
  rewrite (switchDeck_run (currentDeck s)) by (rewrite Hd; exact Hok).
  rewrite Hd. unfold active_deck in Hact. rewrite Hact.
  rewrite (switchDeck_run deckId s Hok).
  clear Hd Hst.
  destruct (List.find (fun x => strict_eq (deck_id x) deckId) (decks s));
    destruct s as [f ds c a1 a2 q a n m i sa lo sv st ok]; cbn in Hf; subst f;
    reflexivity.
Qed.

Lemma switchDeck_back_restores_witness :
  final (switchDeck (JStr "default") (final (switchDeck (JStr "nope") two_cards)))
  = two_cards.
Proof.
  refine (proj2 (proj2 (proj2 (switchDeck_back_restores (JStr "nope") two_cards eq_refl _)))).
  exists (JObj [("id", JStr "default"); ("name", JStr "My Cards");
                ("cards", JArr [new_card 1 "t1" "2+2?" "4"; new_card 2 "t2" "3+3?" "6"])]).
  split; reflexivity.
Defined.

Lemma study_event_keeps (e : event) (s : State) :
  is_study e = true ->
  let s' := final (handle e s) in
  decks s' = decks s /\ flashcards s' = flashcards s /\ currentDeck s' = currentDeck s /\
  storage s' = storage s /\ storage_ok s' = storage_ok s /\
  question s' = question s /\ answer s' = answer s /\ newDeckName s' = newDeckName s.
Proof.
  destruct s as [f ds c a1 a2 q a n m i sa lo sv st ok].
  destruct e; try discriminate; intros _; cbn [handle].
  - unfold studyCards. run.
    destruct (member f "length") as [len|]; cbn; [|repeat split; reflexivity].
    destruct (strict_eq len (JNum 0)); cbn; repeat split; reflexivity.
  - cbn. repeat split; reflexivity.
  - unfold nextCard. run.
    destruct (member f "length") as [len|]; cbn; [|repeat split; reflexivity].
    destruct len as [|[]]; cbn; try (repeat split; reflexivity).
    destruct (_ <? _); cbn; repeat split; reflexivity.
  - cbn. repeat split; reflexivity.
Qed.

(** X13. Studying changes no data: over any sequence of [studyCards],
    [flipCard], [nextCard] and [exitStudy], with any card list, the
    decks, the card list, the active deck, the storage and the text typed
    into the forms stay what they were. *)
Theorem study_session_is_read_only (es : list event) (s : State) :
  forallb is_study es = true ->
  let s' := after es s in
  decks s' = decks s /\ flashcards s' = flashcards s /\ currentDeck s' = currentDeck s /\
  storage s' = storage s /\ storage_ok s' = storage_ok s /\
  question s' = question s /\ answer s' = answer s /\ newDeckName s' = newDeckName s.
Proof.
  revert s. induction es as [|e es IH]; intros s Hes; cbv zeta.
  - repeat split; reflexivity.
  - cbn [forallb] in Hes. apply andb_prop in Hes as [He Hes].
    cbn [after].
    destruct (IH (final (handle e s)) Hes) as (-> & -> & -> & -> & -> & -> & -> & ->).
    exact (study_event_keeps e s He).
Qed.

Lemma study_session_is_read_only_witness :
  decks (after [EvStudyCards; EvFlipCard; EvNextCard; EvNextCard; EvExitStudy] two_cards)
  = decks two_cards.
Proof.
  exact (proj1 (study_session_is_read_only
                  [EvStudyCards; EvFlipCard; EvNextCard; EvNextCard; EvExitStudy]
                  two_cards eq_refl)).
Defined.

(** While the study screen is up the index is that of a card. *)
Lemma study_event_in_range (cards : list json) (e : event) (s : State) :
  is_study e = true ->
  flashcards s = JArr cards ->
  (studyMode s = true -> 0 <= currentCardIndex s < Z.of_nat (length cards)) ->
  let s' := final (handle e s) in
  flashcards s' = JArr cards /\
  (studyMode s' = true -> 0 <= currentCardIndex s' < Z.of_nat (length cards)).
Proof.
  intros He Hf Hin. cbv zeta.
  split; [rewrite (proj1 (proj2 (study_event_keeps e s He))); exact Hf|].
  destruct e; try discriminate He; cbn [handle].
  - rewrite (studyCards_run cards s Hf).
    destruct (Nat.eqb_spec (length cards) 0) as [E|E]; [exact Hin|].
    cbn. intros _. lia.
  - exact Hin.
  - rewrite (nextCard_run cards s Hf).
    destruct (Z.ltb_spec (currentCardIndex s) (Z.of_nat (length cards) - 1)) as [Hlt|Hge].
    + cbn. intros Hm. specialize (Hin Hm). lia.
    + cbn. discriminate.
  - cbn. discriminate.
Qed.

(** X14. The study screen always has a card to show: from the home
    screen, [studyCards] followed by any sequence of flips, next-card
    presses, exits and new [studyCards] leaves, whenever study mode is
    on, an index inside the card list; the card read at that index is one
    of the cards, and for well-formed cards reading its [question] and
    [answer], as the screen does, does not throw. *)
Theorem study_screen_has_a_card (es : list event) (s : State) (cards : list json) :
  flashcards s = JArr cards ->
  studyMode s = false ->
  forallb is_study es = true ->
  let s' := after (EvStudyCards :: es) s in
  studyMode s' = true ->
  0 <= currentCardIndex s' < Z.of_nat (length cards) /\
  exists c,
    In c cards /\
    currentCard s' = J c /\
    (is_card c = true -> cardFaces s' = Normal (prop c "question", prop c "answer")).
Proof.
  intros Hf Hoff Hes. cbv zeta.
  assert (Hinv : forall es t, forallb is_study es = true ->
            flashcards t = JArr cards ->
            (studyMode t = true -> 0 <= currentCardIndex t < Z.of_nat (length cards)) ->
            flashcards (after es t) = JArr cards /\
            (studyMode (after es t) = true ->
             0 <= currentCardIndex (after es t) < Z.of_nat (length cards))).
  { clear. induction es as [|e es IH]; intros t Hes Hf Hin; [split; assumption|].
    cbn [forallb] in Hes. apply andb_prop in Hes as [He Hes]. cbn [after].
    destruct (study_event_in_range cards e t He Hf Hin) as [Hf' Hin'].
    apply IH; assumption. }
  destruct (Hinv (EvStudyCards :: es) s) as [Hf' Hin']; [exact Hes|exact Hf| |].
  { rewrite Hoff. discriminate. }
  intros Hon. specialize (Hin' Hon). split; [exact Hin'|].
  set (s' := after (EvStudyCards :: es) s) in *.
  destruct (lookup_lt_is_Some_2 cards (Z.to_nat (currentCardIndex s'))) as [c Hc]; [lia|].
  exists c. split; [apply list_elem_of_In, (list_elem_of_lookup_2 _ _ _ Hc)|].
  assert (Hcur : currentCard s' = J c).
  { unfold currentCard. rewrite Hf'.
    destruct (Z.leb_spec 0 (currentCardIndex s')); [|lia].
    unfold index. rewrite Hc. reflexivity. }
  split; [exact Hcur|].
  intros Hcard. unfold cardFaces. rewrite Hcur.
  destruct (is_card_obj c Hcard) as [fs ->]. reflexivity.
Qed.

Lemma study_screen_has_a_card_witness :
  exists c, currentCard (after [EvStudyCards; EvFlipCard; EvNextCard] two_cards) = J c.
Proof.
  destruct (study_screen_has_a_card [EvFlipCard; EvNextCard] two_cards _
              eq_refl eq_refl eq_refl eq_refl) as (_ & c & _ & Hc & _).
  exists c. exact Hc.
Defined.

(** X15. The button under the card says what it does: in study mode with
    the index inside the card list, the label is 'Finish' exactly when
    [nextCard] leaves study mode, and 'Next Card' exactly when [nextCard]
    moves to the next card and stays in study mode. *)
Theorem finish_label_matches_nextCard (s : State) (cards : list json) :
  flashcards s = JArr cards ->
  studyMode s = true ->
  0 <= currentCardIndex s < Z.of_nat (length cards) ->
  (nextButtonLabel s = Normal "Finish" <-> studyMode (final (nextCard s)) = false) /\
  (nextButtonLabel s = Normal "Next Card" <->
     studyMode (final (nextCard s)) = true /\
     currentCardIndex (final (nextCard s)) = currentCardIndex s + 1).
Proof.
  intros Hf Hon Hin. rewrite (nextCard_run cards s Hf).
  unfold nextButtonLabel. rewrite Hf.
  change (member (J (JArr cards)) "length") with (Normal (J (JNum (Z.of_nat (length cards))))).
  cbn [mbind mret completion_bind completion_ret].
  destruct (Z.ltb_spec (currentCardIndex s) (Z.of_nat (length cards) - 1)) as [Hlt|Hge];
    destruct (Z.eqb_spec (currentCardIndex s) (Z.of_nat (length cards) - 1)) as [He|Hne];
    try lia; fields; rewrite ?Hon.
  all: split; split; try discriminate; auto.
  all: intros [H _]; discriminate H.
Qed.

Lemma finish_label_matches_nextCard_witness :
  nextButtonLabel (final (nextCard (final (studyCards two_cards)))) = Normal "Finish".
Proof.
  refine (proj2 (proj1 (finish_label_matches_nextCard
            (final (nextCard (final (studyCards two_cards))))
            [new_card 1 "t1" "2+2?" "4"; new_card 2 "t2" "3+3?" "6"] eq_refl eq_refl _)) eq_refl).
  vm_compute. split; [discriminate|reflexivity].
Defined.

(** ** What the home screen shows *)

Lemma deck_name_prop (d : json) :
  is_deck d = true -> prop d "name" = J (JStr (deck_name d)).
Proof.
  intros H. destruct (is_deck_name d H) as [x Hx]. unfold deck_name. rewrite Hx.
  reflexivity.
Qed.

(** X16. The title of the home screen: for well-formed decks
    [getCurrentDeckName] changes nothing, does not throw, and returns the
    name of the deck the active id selects, or 'My Cards' when the active
    id is the id of no deck; when the card list follows the active deck
    the title is the name of a deck of the list. *)
Theorem title_is_the_active_deck_name (s : State) :
  forallb is_deck (decks s) = true ->
  getCurrentDeckName s =
    mkRun (Normal (J (JStr match active_deck s with
                           | Some d => deck_name d
                           | None => "My Cards"
                           end))) s [] /\
  (synced s ->
   exists d, In d (decks s) /\ deck_id d = currentDeck s /\
             outcome (getCurrentDeckName s) = Normal (J (JStr (deck_name d)))).
Proof.
  intros Hok.
  assert (Hrun : getCurrentDeckName s =
    mkRun (Normal (J (JStr match active_deck s with
                           | Some d => deck_name d
                           | None => "My Cards"
                           end))) s []).
  { unfold active_deck.
    destruct (List.find _ (decks s)) as [d|] eqn:Hfind.
    - pose proof (find_some _ _ Hfind) as [Hd _].
      pose proof (decks_ok_elem _ _ Hok Hd) as Hdeck.
      destruct s as [f ds c a1 a2 q a n m i sa lo sv st ok]. cbn in *.
      unfold getCurrentDeckName. run.
      rewrite (find_deck c ds Hok), Hfind. cbn.
      rewrite (truthy_deck d Hdeck), (member_deck d "name" Hdeck). cbn.
      rewrite (deck_name_prop d Hdeck). reflexivity.
    - destruct s as [f ds c a1 a2 q a n m i sa lo sv st ok]. cbn in *.
      unfold getCurrentDeckName. run.
      rewrite (find_deck c ds Hok), Hfind. reflexivity. }
  split; [exact Hrun|].
  intros (d & Hact & _). exists d.
  pose proof (find_some _ _ Hact) as [Hd Hid].
  split; [exact Hd|]. split; [apply strict_eq_true, Hid|].
  rewrite Hrun, Hact. reflexivity.
Qed.

Lemma title_is_the_active_deck_name_witness :
  outcome (getCurrentDeckName restarted) = Normal (J (JStr "My Cards")) /\
  outcome (getCurrentDeckName (final (loadData restarted))) = Normal (J (JStr "My Cards")).
Proof.
  split.
  - rewrite (proj1 (title_is_the_active_deck_name restarted eq_refl)). reflexivity.
  - rewrite (proj1 (title_is_the_active_deck_name (final (loadData restarted)) eq_refl)).
    reflexivity.
Defined.

(** ** Edits of the cards *)

Lemma prop_name_spread_with (x v : json) :
  is_deck x = true -> prop (spread_with x "cards" v) "name" = prop x "name".
Proof.
  intros H. destruct (is_deck_obj x H) as [fs ->].
  unfold spread_with. cbn [prop own_props]. apply lookup_set_field_ne. discriminate.
Qed.

Lemma Forall2_map_same (cur : value) (h : json -> json) (l : list json) :
  (forall x, In x l -> same_but_cards cur x (if strict_eq (deck_id x) cur then h x else x)) ->
  Forall2 (same_but_cards cur) l
    (map (fun x => if strict_eq (deck_id x) cur then h x else x) l).
Proof.
  induction l as [|x l IH]; intros H; cbn [map]; constructor.
  - apply H. left. reflexivity.
  - apply IH. intros y Hy. apply H. right. exact Hy.
Qed.

Lemma same_but_cards_refl (cur : value) (l : list json) :
  Forall2 (same_but_cards cur) l l.
Proof. induction l; constructor; [repeat split; auto|assumption]. Qed.

Lemma same_but_cards_spread (cur : value) (x v : json) :
  is_deck x = true ->
  same_but_cards cur x (if strict_eq (deck_id x) cur then spread_with x "cards" v else x).
Proof.
  intros H. destruct (strict_eq (deck_id x) cur) eqn:E.
  - split; [apply deck_id_spread_with|]. split; [apply prop_name_spread_with, H|].
    intros E'. rewrite E in E'. discriminate E'.
  - repeat split; auto.
Qed.

(** X18. Adding or deleting a card touches the active deck only: for
    well-formed decks, after [saveCard] and after [deleteCard] the deck
    list has the same decks in the same order with the same ids and
    names, every deck whose id is not the active id is unchanged, and the
    active deck id is unchanged. *)
Theorem card_edits_touch_only_the_active_deck
    (now : Z) (iso : string) (cardId : value) (choice : button) (s : State) :
  forallb is_deck (decks s) = true ->
  let s1 := final (saveCard now iso s) in
  let s2 := final (deleteCard cardId choice s) in
  Forall2 (same_but_cards (currentDeck s)) (decks s) (decks s1) /\
  currentDeck s1 = currentDeck s /\
  Forall2 (same_but_cards (currentDeck s)) (decks s) (decks s2) /\
  currentDeck s2 = currentDeck s.
Proof.
  intros Hok. cbv zeta. split; [|split; [|split]].
  - rewrite saveCard_run. destruct (negb _ || negb _); [apply same_but_cards_refl|].
    cbv zeta. rewrite with_card_decks by exact Hok.
    destruct (spread (flashcards s)); fields;
      (apply Forall2_map_same; intros x Hx;
       apply same_but_cards_spread, (decks_ok_elem _ _ Hok Hx)).
  - rewrite saveCard_run. destruct (negb _ || negb _); [reflexivity|].
    cbv zeta. destruct (map_e _ _); [|reflexivity].
    destruct (spread (flashcards s)); reflexivity.
  - destruct choice; [rewrite deleteCard_cancel; apply same_but_cards_refl|].
    rewrite deleteCard_run.
    rewrite (map_e_pure _ (fun x => if strict_eq (deck_id x) (currentDeck s)
               then spread_with x "cards"
                      (JArr (List.filter (fun c => negb (strict_eq (prop c "id") cardId))
                               (deck_cards x)))
               else x)).
    2:{ intros x Hx. apply without_card_deck, (decks_ok_elem _ _ Hok Hx). }
    cbv zeta. destruct (call_filter _ _); fields;
      (apply (Forall2_map_same (currentDeck s)
                (fun x => spread_with x "cards"
                   (JArr (List.filter (fun c => negb (strict_eq (prop c "id") cardId))
                            (deck_cards x)))));
       intros x Hx; apply same_but_cards_spread, (decks_ok_elem _ _ Hok Hx)).
  - destruct choice; [rewrite deleteCard_cancel; reflexivity|].
    rewrite deleteCard_run. destruct (map_e _ _); [|reflexivity].
    cbv zeta. destruct (call_filter _ _); reflexivity.
Qed.

Lemma card_edits_touch_only_the_active_deck_witness :
  Forall2 (same_but_cards (JStr "default"))
    (decks (after example_run (initial None true)))
    (decks (final (deleteCard (JNum 1700000000000) Delete
                     (after example_run (initial None true))))).
Proof.
  exact (proj1 (proj2 (proj2 (card_edits_touch_only_the_active_deck
           0 "t" (JNum 1700000000000) Delete (after example_run (initial None true))
           eq_refl)))).
Defined.

Lemma map_inactive (cur : value) (h : json -> json) (l : list json) :
  List.find (fun d => strict_eq (deck_id d) cur) l = None ->
  map (fun x => if strict_eq (deck_id x) cur then h x else x) l = l.
Proof.
  intros H. rewrite <- (map_id l) at 2. apply map_ext_in. intros x Hx.
  rewrite (find_none _ _ H x Hx). reflexivity.
Qed.

(** X19. A card saved while the active id names no deck is not stored:
    for well-formed decks none of which has the active id, [saveCard]
    with both fields filled raises 'Success!', clears the form and shows
    the new card in the card list, while the deck list is left as it was
    and the list written to the storage is that unchanged list. *)
Theorem saveCard_without_active_deck_keeps_decks
    (now : Z) (iso : string) (s : State) (cards : list json) :
  forallb is_deck (decks s) = true ->
  active_deck s = None ->
  trim (question s) <> "" ->
  trim (answer s) <> "" ->
  flashcards s = JArr cards ->
  let r := saveCard now iso s in
  outcome r = Normal tt /\
  shown r = (if storage_ok s then [] else [SaveError]) ++ [CardAdded] /\
  flashcards (final r)
    = JArr (cards ++ [new_card now iso (trim (question s)) (trim (answer s))]) /\
  decks (final r) = decks s /\
  storage (final r) = written (decks s) s /\
  active_deck (final r) = None.
Proof.
  intros Hok Hact Hq Ha Hf. cbv zeta. rewrite saveCard_run.
  rewrite (trim_nonempty _ Hq), (trim_nonempty _ Ha). cbn [orb]. cbv zeta.
  rewrite with_card_decks by exact Hok.
  rewrite (map_inactive (currentDeck s)
             (fun x => spread_with x "cards" (JArr (deck_cards x ++ [_])))) by exact Hact.
  rewrite Hf, spread_array. unfold active_deck. fields. rewrite app_nil_r.
  repeat split; try reflexivity. exact Hact.
Qed.

Lemma saveCard_without_active_deck_keeps_decks_witness :
  map deck_cards (decks (final (saveCard 1700000100000 "2023-11-14T22:15:00.000Z"
     (after [EvLoadData; EvSetQuestion "2+2?"; EvSetAnswer "4"] restarted)))) = [[]].
Proof.
  destruct (saveCard_without_active_deck_keeps_decks
     1700000100000 "2023-11-14T22:15:00.000Z"
     (after [EvLoadData; EvSetQuestion "2+2?"; EvSetAnswer "4"] restarted) []
     eq_refl eq_refl) as (_ & _ & _ & Hd & _);
    [discriminate|discriminate|reflexivity|].
  rewrite Hd. reflexivity.
Defined.

(** ** Deck names *)

Lemma names_distinct_default : names_distinct [default_deck].
Proof. unfold names_distinct. cbn. apply NoDup_singleton. Qed.

Lemma stored_names_written (l : list json) (s : State) :
  names_distinct l -> stored_names_ok (storage s) -> stored_names_ok (written l s).
Proof. intros Hl Hs. unfold written. destruct (storage_ok s); cbn; auto. Qed.

Lemma names_distinct_filter (q : json -> bool) (l : list json) :
  names_distinct l -> names_distinct (List.filter q l).
Proof.
  unfold names_distinct. induction l as [|x l IH]; cbn; [auto|].
  intros H. apply NoDup_cons in H as [Hx Hl].
  destruct (q x); cbn; [|auto].
  apply NoDup_cons. split; [|auto].
  intros Hin. apply Hx. apply list_elem_of_In in Hin. apply list_elem_of_In.
  apply in_map_iff in Hin as (y & Hy & Hin).
  apply filter_In in Hin as [Hin _]. apply in_map_iff. eauto.
Qed.

Lemma names_distinct_snoc (l : list json) (now : Z) (name : string) :
  names_distinct l -> name_taken name l = false ->
  names_distinct (l ++ [new_deck now name]).
Proof.
  unfold names_distinct, name_taken. intros Hl Hfree.
  rewrite map_app. apply NoDup_app. split; [exact Hl|]. split.
  - intros v Hv Hv'. apply list_elem_of_In in Hv, Hv'. cbn in Hv'.
    destruct Hv' as [<-|[]].
    apply in_map_iff in Hv as (d & Hd & Hin).
    assert (Hex : existsb (fun d => String.eqb (toLowerCase (deck_name d)) (toLowerCase name)) l
                  = true).
    { apply existsb_exists. exists d. split; [exact Hin|].
      rewrite Hd. apply String.eqb_refl. }
    rewrite Hex in Hfree. discriminate Hfree.
  - cbn. apply NoDup_singleton.
Qed.

Lemma deck_name_spread_with (x v : json) :
  is_deck x = true -> deck_name (spread_with x "cards" v) = deck_name x.
Proof. intros H. unfold deck_name. rewrite prop_name_spread_with by exact H. reflexivity. Qed.

Lemma names_distinct_map (cur : value) (h : json -> json) (l : list json) :
  (forall x, In x l -> deck_name (h x) = deck_name x) ->
  names_distinct l ->
  names_distinct (map (fun x => if strict_eq (deck_id x) cur then h x else x) l).
Proof.
  unfold names_distinct. intros Hh Hl. rewrite map_map.
  erewrite map_ext_in; [exact Hl|]. intros x Hx. cbn.
  destruct (strict_eq (deck_id x) cur); [rewrite (Hh x Hx)|]; reflexivity.
Qed.

Lemma names_ok_loadData (s : State) :
  store_ok s -> names_ok s -> names_ok (final (loadData s)).
Proof.
  intros (Hne & Hwf & Hp) [Hn Hs]. rewrite loadData_run.
  destruct s as [f ds c a1 a2 q a n m i sa lo sv st ok]. cbn in *.
  destruct ok; [|split; auto].
  assert (Hreset : names_ok (final (setIsLoading false (final (resetToDefault
            (mkState f ds c a1 a2 q a n m i sa lo sv st true)))))).
  { rewrite resetToDefault_run. split; exact names_distinct_default. }
  destruct st as [[| |v]|]; try (split; auto; fail).
  destruct v as [| | | |[|d l]|]; try exact Hreset.
  destruct (find_e _ _) as [v|e]; cbn; [|split; assumption].
  destruct (truthy v); cbn; [|split; assumption].
  destruct (member v "cards") as [[|[]]|]; cbn; split; assumption.
Qed.

Lemma names_ok_handle (e : event) (s : State) :
  store_ok s -> names_ok s -> names_ok (final (handle e s)).
Proof.
  intros Hs [Hn Hst]. pose proof Hs as (Hne & Hwf & Hp). destruct e; cbn [handle].
  - apply names_ok_loadData; [exact Hs|split; assumption].
  - rewrite resetToDefault_run. fields. split; [exact names_distinct_default|].
    apply (stored_names_written _ s); [exact names_distinct_default|exact Hst].
  - rewrite createDeck_run. cbv zeta.
    destruct (negb _); [split; assumption|].
    rewrite some_same_name by apply Hwf.
    destruct (name_taken _ _) eqn:Htaken; [split; assumption|]. fields.
    pose proof (names_distinct_snoc _ now _ Hn Htaken) as Hn'.
    split; [exact Hn'|]. apply (stored_names_written _ s); assumption.
  - destruct (Nat.leb_spec (length (decks s)) 1) as [Hlen|Hlen].
    { rewrite deleteDeck_last by exact Hlen. split; assumption. }
    destruct choice.
    + rewrite deleteDeck_cancel by (try apply Hwf; lia).
      destruct (List.find _ _); split; assumption.
    + rewrite deleteDeck_delete by (try apply Hwf; lia).
      destruct (List.find _ _); [|split; assumption]. cbv zeta.
      set (u := List.filter _ (decks s)).
      assert (Hu : names_distinct u) by apply names_distinct_filter, Hn.
      assert (Hsu : stored_names_ok (written u s))
        by (apply stored_names_written; assumption).
      destruct (strict_eq (currentDeck s) deckId); fields.
      * destruct u as [|first u']; fields; split; assumption.
      * split; assumption.
  - destruct (switchDeck_keeps_store deckId s) as [Hd Hst'].
    unfold names_ok. rewrite Hd, Hst'. split; assumption.
  - rewrite saveCard_run. destruct (negb _ || negb _); [split; assumption|]. cbv zeta.
    rewrite with_card_decks by apply Hwf.
    set (u := map _ (decks s)).
    assert (Hu : names_distinct u).
    { apply names_distinct_map; [|exact Hn].
      intros x Hx. apply deck_name_spread_with, (decks_ok_elem _ _ (proj1 Hwf) Hx). }
    assert (Hsu : stored_names_ok (written u s))
      by (apply stored_names_written; assumption).
    destruct (spread (flashcards s)); fields; split; assumption.
  - destruct choice; [rewrite deleteCard_cancel; split; assumption|].
    rewrite deleteCard_run.
    rewrite (map_e_pure _ (fun x => if strict_eq (deck_id x) (currentDeck s)
               then spread_with x "cards"
                      (JArr (List.filter (fun c => negb (strict_eq (prop c "id") cardId))
                               (deck_cards x)))
               else x)).
    2:{ intros x Hx. apply without_card_deck, (decks_ok_elem _ _ (proj1 Hwf) Hx). }
    cbv zeta. set (u := map _ (decks s)).
    assert (Hu : names_distinct u).
    { apply (names_distinct_map (currentDeck s)
               (fun x => spread_with x "cards"
                  (JArr (List.filter (fun c => negb (strict_eq (prop c "id") cardId))
                           (deck_cards x))))); [|exact Hn].
      intros x Hx. apply deck_name_spread_with, (decks_ok_elem _ _ (proj1 Hwf) Hx). }
    assert (Hsu : stored_names_ok (written u s))
      by (apply stored_names_written; assumption).
    destruct (call_filter _ _); fields; split; assumption.
  - split; assumption.
  - split; assumption.
  - split; assumption.
  - split; assumption.
  - split; assumption.
  - destruct (study_event_keeps EvStudyCards s eq_refl) as (Hd & _ & _ & Hst' & _).
    cbn [handle] in Hd, Hst'. unfold names_ok. rewrite Hd, Hst'. split; assumption.
  - split; assumption.
  - destruct (study_event_keeps EvNextCard s eq_refl) as (Hd & _ & _ & Hst' & _).
    cbn [handle] in Hd, Hst'. unfold names_ok. rewrite Hd, Hst'. split; assumption.
  - split; assumption.
  - split; assumption.
Qed.

(** X20. Deck names stay distinct: from a store of well-formed decks
    whose names differ pairwise, letter case apart, in memory and in the
    stored list, every sequence of events (with clock readings that are
    not deck ids) leaves decks whose names differ pairwise, letter case
    apart: [createDeck] turns a taken name down and no other handler
    makes or renames a deck. *)
Theorem deck_names_stay_distinct (es : list event) (s : State) :
  store_ok s ->
  names_ok s ->
  fresh_run es s ->
  names_distinct (decks (after es s)) /\ stored_names_ok (storage (after es s)).
Proof.
  revert s. induction es as [|e es IH]; intros s Hs Hn Hf; [exact Hn|].
  destruct Hf as [Hf Hrest]. cbn [after]. apply IH; [| |exact Hrest].
  - apply store_ok_handle; assumption.
  - apply names_ok_handle; assumption.
Qed.

Lemma deck_names_stay_distinct_witness :
  names_distinct (decks (after
    (example_run ++ [EvSetNewDeckName " MATH"; EvCreateDeck 1700000060000])
    (initial None true))).
Proof.
  refine (proj1 (deck_names_stay_distinct
            (example_run ++ [EvSetNewDeckName " MATH"; EvCreateDeck 1700000060000])
            (initial None true) store_ok_initial _ _)).
  - split; [exact names_distinct_default|exact I].
  - vm_compute. repeat split; intros H; repeat (destruct H as [H|H]; [discriminate H|]);
      destruct H.
Defined.

(** ** The storage mirrors the deck list *)

Lemma mirrored_written (l : list json) (s s' : State) :
  storage_ok s = true -> decks s' = l -> storage s' = written l s -> mirrored s'.
Proof. intros Hok Hd Hst. right. rewrite Hst, Hd. unfold written. rewrite Hok. reflexivity. Qed.

Lemma mirrored_handle (e : event) (s : State) :
  store_ok s ->
  storage_ok s = true ->
  mirrored s ->
  storage_up e = true ->
  storage_ok (final (handle e s)) = true /\ mirrored (final (handle e s)).
Proof.
  intros (Hne & Hwf & Hp) Hok Hm Hup. destruct e; cbn [handle].
  - rewrite loadData_run, Hok.
    destruct Hm as [[Hst Hd]|Hst]; rewrite Hst.
    + split; [exact Hok|]. left. split; assumption.
    + destruct (decks s) as [|d l] eqn:Hds; [contradiction|].
      assert (Hm' : forall t, decks t = d :: l -> storage t = storage s ->
                mirrored (final (setIsLoading false t))).
      { intros t Hd Ht. right. fields. rewrite Ht, Hst, Hd. reflexivity. }
      cbv zeta.
      destruct (find_e _ _) as [v|err]; [|split; [exact Hok|apply Hm'; reflexivity]].
      destruct (truthy v); [|split; [exact Hok|apply Hm'; reflexivity]].
      destruct (member v "cards") as [[|[]]|];
        (split; [exact Hok|apply Hm'; reflexivity]).
  - rewrite resetToDefault_run. fields. split; [exact Hok|].
    right. fields. rewrite Hok. reflexivity.
  - rewrite createDeck_run. cbv zeta.
    destruct (negb _); [split; assumption|].
    rewrite some_same_name by apply Hwf.
    destruct (name_taken _ _); [split; assumption|]. fields.
    split; [exact Hok|]. right. fields. rewrite Hok. reflexivity.
  - destruct (Nat.leb_spec (length (decks s)) 1) as [Hlen|Hlen].
    { rewrite deleteDeck_last by exact Hlen. split; assumption. }
    destruct choice.
    + rewrite deleteDeck_cancel by (try apply Hwf; lia).
      destruct (List.find _ _); split; assumption.
    + rewrite deleteDeck_delete by (try apply Hwf; lia).
      destruct (List.find _ _); [|split; assumption]. cbv zeta.
      set (u := List.filter _ (decks s)).
      destruct (strict_eq (currentDeck s) deckId); fields.
      * destruct u as [|first u'] eqn:Hu; fields;
          (split; [exact Hok|]; right; fields; rewrite Hok; reflexivity).
      * split; [exact Hok|]. right. fields. rewrite Hok. reflexivity.
  - rewrite switchDeck_run by apply Hwf.
    destruct (List.find _ _); fields; (split; [exact Hok|]);
      (destruct Hm as [[Hst Hd]|Hst]; [left; split; assumption|right; exact Hst]).
  - rewrite saveCard_run. destruct (negb _ || negb _); [split; assumption|]. cbv zeta.
    rewrite with_card_decks by apply Hwf.
    destruct (spread (flashcards s)); fields;
      (split; [exact Hok|]; right; fields; rewrite Hok; reflexivity).
  - destruct choice; [rewrite deleteCard_cancel; split; assumption|].
    rewrite deleteCard_run.
    rewrite (map_e_pure _ (fun x => if strict_eq (deck_id x) (currentDeck s)
               then spread_with x "cards"
                      (JArr (List.filter (fun c => negb (strict_eq (prop c "id") cardId))
                               (deck_cards x)))
               else x)).
    2:{ intros x Hx. apply without_card_deck, (decks_ok_elem _ _ (proj1 Hwf) Hx). }
    cbv zeta. destruct (call_filter _ _); fields;
      (split; [exact Hok|]; right; fields; rewrite Hok; reflexivity).
  - split; assumption.
  - split; assumption.
  - split; assumption.
  - split; assumption.
  - split; assumption.
  - destruct (study_event_keeps EvStudyCards s eq_refl) as (Hd & _ & _ & Hst' & Hok' & _).
    cbn [handle] in Hd, Hst', Hok'. unfold mirrored. rewrite Hd, Hst', Hok'.
    split; assumption.
  - split; assumption.
  - destruct (study_event_keeps EvNextCard s eq_refl) as (Hd & _ & _ & Hst' & Hok' & _).
    cbn [handle] in Hd, Hst', Hok'. unfold mirrored. rewrite Hd, Hst', Hok'.
    split; assumption.
  - split; assumption.
  - destruct ok; [|discriminate Hup]. split; [reflexivity|exact Hm].
Qed.

Lemma mirrored_after (es : list event) (s : State) :
  store_ok s ->
  storage_ok s = true ->
  mirrored s ->
  forallb storage_up es = true ->
  fresh_run es s ->
  store_ok (after es s) /\ mirrored (after es s).
Proof.
  revert s. induction es as [|e es IH]; intros s Hs Hok Hm Hup Hf.
  - split; assumption.
  - cbn [forallb] in Hup. apply andb_prop in Hup as [Hup Hups].
    destruct Hf as [Hf Hrest]. cbn [after].
    destruct (mirrored_handle e s Hs Hok Hm Hup) as [Hok' Hm'].
    apply IH; try assumption. apply store_ok_handle; assumption.
Qed.

(** X21. What is in memory is what a restart finds: from a store of
    well-formed decks whose storage holds the deck list (or nothing yet,
    with the default deck in memory), while the storage backend answers,
    every sequence of events leaves the storage holding the deck list of
    the state, and [loadData] at the next start of the application sets
    that very deck list. *)
Theorem restart_finds_the_decks (es : list event) (s : State) :
  store_ok s ->
  storage_ok s = true ->
  mirrored s ->
  forallb storage_up es = true ->
  fresh_run es s ->
  let s' := after es s in
  mirrored s' /\
  outcome (loadData (initial (storage s') true)) = Normal tt /\
  decks (final (loadData (initial (storage s') true))) = decks s'.
Proof.
  intros Hs Hok Hm Hup Hf. cbv zeta.
  destruct (mirrored_after es s Hs Hok Hm Hup Hf) as [(Hne & _) Hm'].
  split; [exact Hm'|].
  pose proof (loadData_cases (initial (storage (after es s)) true)) as (Hout & Hload & _).
  split; [exact Hout|].
  specialize (Hload eq_refl). cbv zeta in Hload.
  change (storage (initial (storage (after es s)) true)) with (storage (after es s)) in Hload.
  destruct Hm' as [[Hst Hd]|Hst]; rewrite Hst in *.
  - destruct Hload as (-> & _). rewrite Hd. reflexivity.
  - destruct (decks (after es s)) as [|d l]; [contradiction|].
    destruct Hload as (-> & _). reflexivity.
Qed.

Lemma restart_finds_the_decks_witness :
  decks (final (loadData (initial (storage (after example_run (initial None true))) true)))
  = decks (after example_run (initial None true)).
Proof.
  refine (proj2 (proj2 (restart_finds_the_decks example_run (initial None true)
                          store_ok_initial eq_refl _ eq_refl _))).
  - left. split; reflexivity.
  - vm_compute. repeat split; intros H; repeat (destruct H as [H|H]; [discriminate H|]);
      destruct H.
Defined.

(** X22. Which deck a restart shows: under the conditions of the
    previous property, [loadData] at the next start leaves the active id
    'default'; the deck it selects is the deck with id 'default' of the
    list in memory before the restart, with its cards as the card list,
    and no deck at all when that deck was deleted. *)
Theorem restart_selects_the_default_deck (es : list event) (s : State) :
  store_ok s ->
  storage_ok s = true ->
  mirrored s ->
  forallb storage_up es = true ->
  fresh_run es s ->
  let s' := after es s in
  let t := final (loadData (initial (storage s') true)) in
  currentDeck t = J (JStr "default") /\
  active_deck t = List.find (fun x => strict_eq (deck_id x) (JStr "default")) (decks s') /\
  (forall d, active_deck t = Some d -> flashcards t = JArr (deck_cards d)).
Proof.
  intros Hs Hok Hm Hup Hf. cbv zeta.
  destruct (mirrored_after es s Hs Hok Hm Hup Hf) as [(Hne & Hwf & _) Hm'].
  set (s' := after es s) in *.
  rewrite loadData_run. unfold initial at 1 2. fields.
  destruct Hm' as [[Hst Hd]|Hst]; rewrite Hst.
  - rewrite Hd. split; [reflexivity|]. split; [reflexivity|].
    intros d [= <-]. reflexivity.
  - destruct (decks s') as [|d0 l] eqn:Hds; [contradiction|]. cbv zeta.
    unfold initial. fields. rewrite (find_deck _ _ (proj1 Hwf)).
    destruct (List.find _ (d0 :: l)) as [d|] eqn:Hfind.
    + pose proof (find_some _ _ Hfind) as [Hd _].
      pose proof (decks_ok_elem _ _ (proj1 Hwf) Hd) as Hdeck.
      rewrite (truthy_deck d Hdeck), (member_deck d "cards" Hdeck).
      rewrite (proj1 (is_deck_cards d Hdeck)). unfold active_deck. fields.
      split; [reflexivity|]. split; [exact Hfind|].
      intros d' Hd'. rewrite Hfind in Hd'. injection Hd' as <-. reflexivity.
    + unfold active_deck. cbn [truthy]. fields.
      split; [reflexivity|]. split; [exact Hfind|].
      intros d' Hd'. rewrite Hfind in Hd'. discriminate Hd'.
Qed.

Lemma restart_selects_the_default_deck_witness :
  active_deck (final (loadData
     (initial (storage (after first_session (initial None true))) true))) = None.
Proof.
  destruct (restart_selects_the_default_deck first_session (initial None true)
              store_ok_initial eq_refl) as (_ & H & _).
  - left. split; reflexivity.
  - reflexivity.
  - vm_compute. repeat split; intros H; repeat (destruct H as [H|H]; [discriminate H|]);
      destruct H.
  - rewrite H. reflexivity.
Defined.

(** X23. Deleting the active deck activates the first deck left: in a
    store of well-formed decks, two or more, a confirmed [deleteDeck] of
    the active deck removes it, makes the first remaining deck the active
    one and shows that deck's cards, so the card list again follows the
    active deck. *)
Theorem deleteDeck_of_the_active_deck (s : State) (d : json) :
  store_ok s ->
  (2 <= length (decks s))%nat ->
  active_deck s = Some d ->
  let s' := final (deleteDeck (currentDeck s) Delete s) in
  (exists first rest,
     decks s' = first :: rest /\
     decks s' = List.filter (fun x => negb (strict_eq (deck_id x) (currentDeck s))) (decks s) /\
     currentDeck s' = deck_id first /\
     flashcards s' = JArr (deck_cards first)) /\
  ~ In d (decks s') /\
  synced s'.
Proof.
  intros Hs Hlen Hact. cbv zeta.
  pose proof (deleteDeck_active_moves_to_first s d Hs Hlen Hact) as Hmove.
  cbv zeta in Hmove. destruct Hmove as (first & rest & Hd & Hfilter & Hcur & Hf).
  pose proof (store_ok_deleteDeck (currentDeck s) Delete s Hs) as (_ & Hwf' & _).
  split; [exists first, rest; auto|]. split.
  - rewrite Hfilter. intros Hin. apply filter_In in Hin as [_ Hin].
    pose proof (find_some _ _ Hact) as [_ Hid]. rewrite Hid in Hin. discriminate Hin.
  - exists first. split; [|exact Hf].
    unfold active_deck. rewrite Hd, Hcur. cbn [List.find].
    rewrite strict_eq_deck_id; [reflexivity|].
    apply (decks_ok_elem _ first (proj1 Hwf')). rewrite Hd. left. reflexivity.
Qed.

Lemma deleteDeck_of_the_active_deck_witness :
  synced (final (deleteDeck (JStr "default") Delete
                   (final (createDeck 1700000000000 naming_a_deck)))).
Proof.
  refine (proj2 (proj2 (deleteDeck_of_the_active_deck
            (final (createDeck 1700000000000 naming_a_deck)) default_deck _ _ eq_refl))).
  - apply store_ok_createDeck.
    + apply (store_ok_after [EvLoadData; EvSetNewDeckName " Math "] _ store_ok_initial).
      repeat split.
    + vm_compute. intros [Hin|[]]. discriminate Hin.
  - vm_compute. lia.
Defined.


